(** * Trading risk/execution engine: entry aggregator, exit monitor, supervisor

    A shallow embedding of the scheduling and risk code of the trading bot
    ([main.py], [risk_managment.py], [trailing_stoploss_helper.py],
    [shared_data.py], [config.py]) together with the properties of its
    position-state stores.

    Conventions of the embedding:
    - Python floats (pips, prices, [time.time()] readings) are exact
      rationals [Q]; comparisons and [max] are exact on floats, the
      subtractions and the division by the pip size are idealised: a
      float result lies within a rounding error of the rational one.
    - A price printed with [f'{x:.5f}'] is the rational rounded to five
      decimals, ties to even; a float within a rounding error of a tie
      prints as one of the two neighbours.
    - The module-level dictionaries [peaks], [recently_closed] and
      [shared_risk_data] are finite maps keyed by strings.
    - Every reply of the broker, of the clock and of the predictor is an
      input of the function that performs the call; a call of the
      predictor may raise, like a request to the broker.
    - Every state-changing request handed to the broker is appended to the
      [sent] log of the state.
    - An uncaught Python exception is the [Exn] result; it carries the state
      reached when it was raised. *)

From Stdlib Require Import Ascii String QArith Qabs Lqa.
From stdpp Require Import gmap strings list.

Local Open Scope string_scope.

(** ** Strings: [str.upper] and the [in] test on instrument names *)

Definition upper_ascii (c : ascii) : ascii :=
  let n := nat_of_ascii c in
  if ((97 <=? n)%nat && (n <=? 122)%nat)%bool then ascii_of_nat (n - 32) else c.

Fixpoint upper (s : string) : string :=
  match s with
  | EmptyString => EmptyString
  | String c r => String (upper_ascii c) (upper r)
  end.

Fixpoint contains (needle hay : string) : bool :=
  (String.prefix needle hay
   || match hay with
      | EmptyString => false
      | String _ r => contains needle r
      end)%bool.

(** [0.01 if 'JPY' in inst.upper() else 0.0001] *)
Definition pip_size (inst : string) : Q :=
  if contains "JPY" (upper inst) then (1 # 100)%Q else (1 # 10000)%Q.

(** ** Comparisons and [max] on floats *)

Definition Qge_bool (a b : Q) : bool := Qle_bool b a.
Definition Qlt_bool (a b : Q) : bool := negb (Qle_bool b a).

(** Python's [max(a, b)]: the first argument unless the second is strictly
    greater. *)
Definition py_max (a b : Q) : Q := if Qlt_bool a b then b else a.

(** Rounding to the nearest integer, ties to the even one. *)
Definition round_half_even (x : Q) : Z :=
  let n := Qnum x in
  let d := Zpos (Qden x) in
  let z := (n / d)%Z in
  match (2 * (n mod d) ?= d)%Z with
  | Lt => z
  | Gt => (z + 1)%Z
  | Eq => if Z.even z then z else (z + 1)%Z
  end.

(** The number printed by [f'{x:.5f}']: the nearest number with five
    decimals. *)
Definition fmt5 (x : Q) : Q := (round_half_even (x * 100000) # 100000)%Q.

(** ** Configuration ([config.py]) *)

Record Config := {
  ORDER_SIZE : Z;
  ACTIVATION_THRESHOLD : Z;
  TRAILING_GAP : Z;
  POLL_INTERVAL : Z;
  TAKE_PROFIT_PIPS : Z
}.

(** The values [config.py] falls back to when the environment sets none. *)
Definition default_config : Config :=
  {| ORDER_SIZE := 1000;
     ACTIVATION_THRESHOLD := 20;
     TRAILING_GAP := 10;
     POLL_INTERVAL := 60;
     TAKE_PROFIT_PIPS := 70 |}.

(** [main.py] and [risk_managment.py] *)
Definition INSTRUMENTS : list string :=
  ["EUR_USD"; "USD_JPY"; "GBP_USD"; "USD_CHF"; "AUD_USD"; "NZD_USD";
   "USD_CAD"; "EUR_GBP"; "EUR_JPY"; "GBP_JPY"].

Definition ENTRY_THRESHOLD_PIPS : Q := 50.
Definition CONDITIONAL_INTERVAL : Q := 120.

(** ** Data *)

(** One element of the broker's [openTrades] reply. *)
Record Trade := {
  t_id : string;
  t_instrument : string;
  t_price : Q;
  t_initialUnits : Z;
  t_currentUnits : option Q
}.

Inductive Side := long | short.

(** The dictionaries built by [RiskManager.get_live_positions]. *)
Record Position := {
  trade_id : string;
  pos_instrument : string;
  entry_price : Q;
  side : Side
}.

Inductive SignalKind := BUY | SELL | HOLD.

(** The dictionaries returned by [generate_signal]. *)
Record Signal := {
  sig_instrument : string;
  timeframe : string;
  signal : SignalKind;
  predicted_pips : Q;
  trailing_pips : Q
}.

(** A value of [shared_risk_data]. *)
Record SharedEntry := {
  predicted_profit_pips : Q;
  last_update : string
}.

(** State-changing requests handed to the broker. *)
Inductive Request :=
| TradeClose (tid : string)
    (** [trades_ep.TradeClose] of the trailing-stop module *)
| PutClose (tid : string)
    (** [PUT .../trades/<id>/close] of [RiskManager.close_trade_by_id] *)
| MarketOrder (inst : string) (units : Z) (sl_price tp_price : Q).
    (** [POST .../orders] of [RiskManager.confirm_trade], with both prices
        as the body carries them, printed with five decimals *)

(** ** Program state *)

Record State := {
  enabled : bool;                          (* main.enabled *)
  last_entry_time : Q;                     (* main.last_entry_time *)
  active_trade : option Position;          (* rm.active_trade *)
  peaks : gmap string Q;                   (* trade_id -> highest profit seen *)
  recently_closed : gmap string Q;         (* instrument -> time of close *)
  shared_risk_data : gmap string SharedEntry;
  sent : list Request                      (* requests issued so far, oldest first *)
}.

Definition set_enabled (b : bool) (s : State) : State :=
  {| enabled := b; last_entry_time := last_entry_time s;
     active_trade := active_trade s; peaks := peaks s;
     recently_closed := recently_closed s;
     shared_risk_data := shared_risk_data s; sent := sent s |}.

Definition set_last_entry_time (t : Q) (s : State) : State :=
  {| enabled := enabled s; last_entry_time := t;
     active_trade := active_trade s; peaks := peaks s;
     recently_closed := recently_closed s;
     shared_risk_data := shared_risk_data s; sent := sent s |}.

Definition set_active_trade (a : option Position) (s : State) : State :=
  {| enabled := enabled s; last_entry_time := last_entry_time s;
     active_trade := a; peaks := peaks s;
     recently_closed := recently_closed s;
     shared_risk_data := shared_risk_data s; sent := sent s |}.

Definition set_peaks (p : gmap string Q) (s : State) : State :=
  {| enabled := enabled s; last_entry_time := last_entry_time s;
     active_trade := active_trade s; peaks := p;
     recently_closed := recently_closed s;
     shared_risk_data := shared_risk_data s; sent := sent s |}.

Definition set_recently_closed (r : gmap string Q) (s : State) : State :=
  {| enabled := enabled s; last_entry_time := last_entry_time s;
     active_trade := active_trade s; peaks := peaks s;
     recently_closed := r;
     shared_risk_data := shared_risk_data s; sent := sent s |}.

Definition set_shared_risk_data (d : gmap string SharedEntry) (s : State) : State :=
  {| enabled := enabled s; last_entry_time := last_entry_time s;
     active_trade := active_trade s; peaks := peaks s;
     recently_closed := recently_closed s;
     shared_risk_data := d; sent := sent s |}.

Definition send (r : Request) (s : State) : State :=
  {| enabled := enabled s; last_entry_time := last_entry_time s;
     active_trade := active_trade s; peaks := peaks s;
     recently_closed := recently_closed s;
     shared_risk_data := shared_risk_data s; sent := sent s ++ [r] |}.

(** The state of a freshly started process. *)
Definition initial_state : State :=
  {| enabled := true; last_entry_time := 0; active_trade := None;
     peaks := ∅; recently_closed := ∅; shared_risk_data := ∅; sent := [] |}.

(** ** Results: normal completion or an uncaught exception *)

Inductive res (A : Type) :=
| Ok (a : A) (s : State)
| Exn (s : State).
Arguments Ok {A} a s.
Arguments Exn {A} s.

Definition M (A : Type) : Type := State -> res A.

Definition ret {A} (a : A) : M A := fun s => Ok a s.
Definition raise {A} : M A := fun s => Exn s.
Definition bind {A B} (m : M A) (k : A -> M B) : M B :=
  fun s => match m s with
           | Ok a s' => k a s'
           | Exn s' => Exn s'
           end.
Definition modify (f : State -> State) : M unit := fun s => Ok tt (f s).
Definition gets {A} (f : State -> A) : M A := fun s => Ok (f s) s.

Declare Scope prog_scope.
Delimit Scope prog_scope with prog.
Notation "x <~ c ;; k" := (bind c (fun x => k))
  (at level 100, c at next level, right associativity) : prog_scope.
Notation "c ;;; k" := (bind c (fun _ => k))
  (at level 100, right associativity) : prog_scope.

(** The state a result ends in, whichever way it ends. *)
Definition final {A} (r : res A) : State :=
  match r with Ok _ s => s | Exn s => s end.

Definition raised {A} (r : res A) : bool :=
  match r with Ok _ _ => false | Exn _ => true end.

(** [for x in l: body(x)]: the first exception leaves the loop. *)
Fixpoint for_each {A} (body : A -> M unit) (l : list A) : M unit :=
  match l with
  | [] => ret tt
  | x :: l' => (body x ;;; for_each body l')%prog
  end.

(** ** [shared_data.py] *)

Definition update_predicted_profit (inst : string) (profit : Q) (stamp : string)
  : M unit :=
  modify (fun s =>
    set_shared_risk_data
      (<[inst := {| predicted_profit_pips := profit; last_update := stamp |}]>
         (shared_risk_data s)) s).

Definition get_predicted_profit (inst : string) : M (option Q) :=
  gets (fun s => predicted_profit_pips <$> shared_risk_data s !! inst).

Definition clear_predicted_profit (inst : string) : M unit :=
  modify (fun s => set_shared_risk_data (delete inst (shared_risk_data s)) s).

(** ** Replies of the outside world *)

(** [fetch_open_trades]: the reply of [GET .../openTrades]. *)
Inductive FetchReply :=
| FetchOk (trades : list Trade)
| FetchError.

(** [fetch_current_price]: a mid price, an empty [prices] list, or an HTTP or
    connection error. *)
Inductive PriceReply :=
| PriceOk (mid : Q)
| PriceEmpty
| PriceError.

(** [client.request(TradeClose)]: returns, or raises. *)
Inductive CloseReply :=
| CloseOk
| CloseError.

(** [requests.put(.../close)]: status 200, another status, or a connection
    error. *)
Inductive PutReply :=
| Put200
| PutRejected
| PutError.

(** [requests.post(.../orders)] followed by [raise_for_status]. *)
Inductive OrderReply :=
| OrderFilled (orderID : string)
| OrderError.

(** ** [risk_managment.py]: the two fetches *)

(** The [try]/[except] of [fetch_open_trades] turns every error into []. *)
Definition fetch_open_trades (reply : FetchReply) : M (list Trade) :=
  match reply with
  | FetchOk trades => ret trades
  | FetchError => ret []
  end.

(** [fetch_current_price] has no handler: [raise_for_status] and connection
    errors leave it as exceptions. *)
Definition fetch_current_price (reply : PriceReply) : M (option Q) :=
  match reply with
  | PriceOk mid => ret (Some mid)
  | PriceEmpty => ret None
  | PriceError => raise
  end.

(** ** [trailing_stoploss_helper.py] *)

Section Trailing.

Variable cfg : Config.

Definition COOLDOWN_PERIOD : Z := (POLL_INTERVAL cfg * 5)%Z.

(** What the world answers while one open trade is looked at. *)
Record StepEnv := {
  clock_check : Q;          (* time.time() of the cooldown test *)
  price_reply : PriceReply; (* consulted only if the price is fetched *)
  close_reply : CloseReply; (* consulted only if a close is requested *)
  clock_close : Q           (* time.time() inside close_trade_by_id *)
}.

Definition close_trade_by_id (tid inst : string) (e : StepEnv) : M unit :=
  (modify (send (TradeClose tid)) ;;;
   match close_reply e with
   | CloseError => raise
   | CloseOk =>
       modify (fun s =>
         set_recently_closed (<[inst := clock_close e]> (recently_closed s)) s) ;;;
       modify (fun s => set_peaks (delete tid (peaks s)) s) ;;;
       clear_predicted_profit inst
   end)%prog.

(** [inst in recently_closed and (time.time() - recently_closed[inst]) < COOLDOWN_PERIOD] *)
Definition in_cooldown (inst : string) (now : Q) (s : State) : bool :=
  match recently_closed s !! inst with
  | Some closed_at => Qlt_bool (now - closed_at)%Q (inject_Z COOLDOWN_PERIOD)
  | None => false
  end.

(** [float(t.get('currentUnits', t.get('initialUnits', 0)))] *)
Definition units_of (t : Trade) : Q :=
  match t_currentUnits t with
  | Some u => u
  | None => inject_Z (t_initialUnits t)
  end.

Definition computed_profit (t : Trade) (current : Q) : Q :=
  let entry := t_price t in
  let pip := pip_size (t_instrument t) in
  if Qlt_bool 0 (units_of t) then ((current - entry) / pip)%Q
  else ((entry - current) / pip)%Q.

(** The profit in pips the monitor works with: the shared value when there is
    one, else a value computed from a freshly fetched price.  [None] stands for
    "could not fetch price". *)
Definition current_profit (t : Trade) (e : StepEnv) : M (option Q) :=
  (shared <~ get_predicted_profit (t_instrument t) ;;
   match shared with
   | Some profit => ret (Some profit)
   | None =>
       current <~ fetch_current_price (price_reply e) ;;
       match current with
       | None => ret None
       | Some c => ret (Some (computed_profit t c))
       end
   end)%prog.

(** Steps 1 to 4 of the loop body, once the profit is known. *)
Definition evaluate (t : Trade) (e : StepEnv) (profit : Q) : M unit :=
  let tid := t_id t in
  let inst := t_instrument t in
  if Qge_bool profit (inject_Z (TAKE_PROFIT_PIPS cfg)) then
    close_trade_by_id tid inst e
  else
    (old <~ gets (fun s => peaks s !! tid) ;;
     let old_peak := default profit old in
     let new_peak := py_max old_peak profit in
     modify (fun s => set_peaks (<[tid := new_peak]> (peaks s)) s) ;;;
     if Qge_bool new_peak (inject_Z (ACTIVATION_THRESHOLD cfg)) then
       let retrace := (new_peak - profit)%Q in
       if Qge_bool retrace (inject_Z (TRAILING_GAP cfg)) then
         close_trade_by_id tid inst e
       else ret tt
     else ret tt)%prog.

(** The body of [for t in trades]. *)
Definition monitor_trade (te : Trade * StepEnv) : M unit :=
  let (t, e) := te in
  (cooling <~ gets (in_cooldown (t_instrument t) (clock_check e)) ;;
   if cooling : bool then ret tt
   else
     profit <~ current_profit t e ;;
     match profit with
     | None => ret tt
     | Some p => evaluate t e p
     end)%prog.

(** One round of the [while True] loop.  [profit_updates] are the calls of
    [update_predicted_profit] made by the profit-monitor thread since the
    previous round. *)
Record CycleEnv := {
  profit_updates : list (string * Q * string);
  open_trades : FetchReply;
  replies : list StepEnv
}.

(** The trades of a round paired with the replies met while each is looked
    at; a trade without its own replies gets the last resort [quiet]. *)
Definition quiet : StepEnv :=
  {| clock_check := 0; price_reply := PriceEmpty;
     close_reply := CloseOk; clock_close := 0 |}.

Fixpoint pair_replies (trades : list Trade) (rs : list StepEnv)
  : list (Trade * StepEnv) :=
  match trades with
  | [] => []
  | t :: ts => (t, hd quiet rs) :: pair_replies ts (tl rs)
  end.

Definition monitor_cycle (c : CycleEnv) : M unit :=
  (for_each (fun w => match w with (inst, p, stamp) =>
                        update_predicted_profit inst p stamp end)
            (profit_updates c) ;;;
   trades <~ fetch_open_trades (open_trades c) ;;
   for_each monitor_trade (pair_replies trades (replies c)))%prog.

(** [live_trailing_stop_monitor] over the rounds the world lets it run: [Ok]
    when the loop is still alive after them, [Exn] when an exception ended
    it. *)
Definition live_trailing_stop_monitor (rounds : list CycleEnv) : M unit :=
  for_each monitor_cycle rounds.

End Trailing.

(** ** [risk_managment.py]: [RiskManager] *)

(** A Python [dict] keyed by instrument: assignment to a present key keeps the
    key's place, a new key goes last. *)
Fixpoint dict_set (k : string) (v : Position) (d : list (string * Position))
  : list (string * Position) :=
  match d with
  | [] => [(k, v)]
  | (k', v') :: d' =>
      if String.eqb k' k then (k', v) :: d' else (k', v') :: dict_set k v d'
  end.

Definition position_of (t : Trade) : Position :=
  {| trade_id := t_id t;
     pos_instrument := t_instrument t;
     entry_price := t_price t;
     side := if (0 <? t_initialUnits t)%Z then long else short |}.

Definition positions_of (trades : list Trade) : list (string * Position) :=
  fold_left (fun d t => dict_set (t_instrument t) (position_of t) d) trades [].

(** [get_live_positions]: fetches, and refreshes [self.active_trade] with
    the first value of the dictionary ([None] when it is empty). *)
Definition get_live_positions (reply : FetchReply)
  : M (list (string * Position)) :=
  (trades <~ fetch_open_trades reply ;;
   let positions := positions_of trades in
   modify (set_active_trade (snd <$> head positions)) ;;;
   ret positions)%prog.

Section Risk.

Variable cfg : Config.

(** [confirm_trade]: market order with SL = 50 pips and TP = 70 pips; the
    body of the request carries [f'{sl_price:.5f}'] and [f'{tp_price:.5f}']. *)
Definition confirm_trade (inst : string) (sd : Side)
    (price : PriceReply) (order : OrderReply) : M (option string) :=
  (p <~ fetch_current_price price ;;
   match p with
   | None => ret None
   | Some price =>
       let pip := pip_size inst in
       let units := match sd with
                    | long => ORDER_SIZE cfg
                    | short => (- ORDER_SIZE cfg)%Z
                    end in
       let sl_pips := 50%Q in
       let tp_pips := 70%Q in
       let sl_price := match sd with
                       | long => (price - sl_pips * pip)%Q
                       | short => (price + sl_pips * pip)%Q
                       end in
       let tp_price := match sd with
                       | long => (price + tp_pips * pip)%Q
                       | short => (price - tp_pips * pip)%Q
                       end in
       modify (send (MarketOrder inst units (fmt5 sl_price) (fmt5 tp_price))) ;;;
       match order with
       | OrderError => raise
       | OrderFilled tid =>
           modify (set_active_trade
                     (Some {| trade_id := tid; pos_instrument := inst;
                              entry_price := price; side := sd |})) ;;;
           ret (Some tid)
       end
   end)%prog.

(** [RiskManager.close_trade_by_id]: a status other than 200 is only logged. *)
Definition rm_close_trade_by_id (tid : string) (reply : PutReply) : M unit :=
  (modify (send (PutClose tid)) ;;;
   match reply with
   | PutError => raise
   | Put200 | PutRejected => ret tt
   end)%prog.

(** [update_all_positions]: auto-close at +70 or -50 pips. *)
Definition update_all_positions (prices : string -> option Q) (reply : PutReply)
  : M unit :=
  (active <~ gets active_trade ;;
   match active with
   | None => ret tt
   | Some a =>
       let inst := pos_instrument a in
       let tid := trade_id a in
       match prices inst with
       | None => ret tt
       | Some cp =>
           let ep := entry_price a in
           let pip := pip_size inst in
           let profit := match side a with
                         | long => ((cp - ep) / pip)%Q
                         | short => ((ep - cp) / pip)%Q
                         end in
           if (Qge_bool profit 70 || Qle_bool profit (-50))%bool then
             rm_close_trade_by_id tid reply ;;;
             modify (set_active_trade None)
           else ret tt
       end
   end)%prog.

(** ** The entry aggregator *)

(** The test [if sig and sig.get("signal") != "HOLD"] of
    [generate_multiframe_signal]. *)
Definition kept (sg : option Signal) : option Signal :=
  match sg with
  | Some x => match signal x with HOLD => None | _ => Some x end
  | None => None
  end.

(** The list [generate_multiframe_signal] returns when each of its calls of
    [generate_signal] returns: signals that are absent or HOLD are dropped. *)
Definition returned_signals
    (generate_signal : string -> string -> option Signal)
    (inst : string) (timeframes : list string) : list Signal :=
  omap (fun gran => kept (generate_signal inst gran)) timeframes.

(** [max(l, key=...)] on a list with first element [best]: the first of the
    elements whose key is greatest. *)
Fixpoint max_by (key : Signal -> Q) (best : Signal) (l : list Signal) : Signal :=
  match l with
  | [] => best
  | x :: l' => max_by key (if Qlt_bool (key best) (key x) then x else best) l'
  end.

Definition side_of (sg : Signal) : Side :=
  match signal sg with BUY => long | _ => short end.

(** What the world answers during one entry evaluation. *)
Record EntryEnv := {
  positions_reply : FetchReply;      (* the deciding get_live_positions *)
  positions_reply_log : FetchReply;  (* the one made for the log line *)
  signal_error : string -> string -> bool;
                                     (* generate_signal(inst, gran) raises *)
  generate_signal : string -> string -> option Signal;
                                     (* what it returns when it does not *)
  entry_price_reply : PriceReply;
  order_reply : OrderReply
}.

(** One call of [pinhead_indicator.generate_signal]: the indicator and model
    code under it runs without a handler, so a failure there reaches the
    caller. *)
Definition call_generate_signal (e : EntryEnv) (inst gran : string)
  : M (option Signal) :=
  if signal_error e inst gran then raise else ret (generate_signal e inst gran).

(** [pinhead_indicator.generate_multiframe_signal] *)
Fixpoint generate_multiframe_signal (e : EntryEnv) (inst : string)
    (timeframes : list string) : M (list Signal) :=
  match timeframes with
  | [] => ret []
  | gran :: rest =>
      (sg <~ call_generate_signal e inst gran ;;
       signals <~ generate_multiframe_signal e inst rest ;;
       ret match kept sg with
           | Some x => x :: signals
           | None => signals
           end)%prog
  end.

(** [for inst in INSTRUMENTS: all_signals.extend(generate_multiframe_signal(
    inst, ["M5", "M15", "H1"]))] *)
Fixpoint collect_signals (e : EntryEnv) (insts : list string)
  : M (list Signal) :=
  match insts with
  | [] => ret []
  | inst :: rest =>
      (signals <~ generate_multiframe_signal e inst ["M5"; "M15"; "H1"] ;;
       more <~ collect_signals e rest ;;
       ret (signals ++ more)%list)%prog
  end.

(** The selection shared by both entry functions: [Some best] when a signal
    reaches the threshold. *)
Definition select_best (all_signals : list Signal) : option Signal :=
  let viable :=
    List.filter (fun s => Qge_bool (Qabs (predicted_pips s)) ENTRY_THRESHOLD_PIPS)
      all_signals in
  match viable with
  | [] => None
  | s :: rest => Some (max_by (fun x => Qabs (predicted_pips x)) s rest)
  end.

(** The signal an entry evaluation selects when every call of
    [generate_signal] returns. *)
Definition best_signal (e : EntryEnv) : option Signal :=
  select_best
    (flat_map (fun inst =>
                 returned_signals (generate_signal e) inst ["M5"; "M15"; "H1"])
       INSTRUMENTS).

(** [main.job_multiframe] *)
Definition job_multiframe (e : EntryEnv) : M unit :=
  (on <~ gets enabled ;;
   if negb on then ret tt
   else
     positions <~ get_live_positions (positions_reply e) ;;
     match positions with
     | [] =>
         all_signals <~ collect_signals e INSTRUMENTS ;;
         match select_best all_signals with
         | Some best =>
             confirm_trade (sig_instrument best) (side_of best)
               (entry_price_reply e) (order_reply e) ;;;
             ret tt
         | None => ret tt
         end
     | _ :: _ =>
         get_live_positions (positions_reply_log e) ;;;
         ret tt
     end)%prog.

(** [risk_managment.conditional_entry] *)
Definition conditional_entry (e : EntryEnv) : M unit :=
  (positions <~ get_live_positions (positions_reply e) ;;
   match positions with
   | [] =>
       all_sigs <~ collect_signals e INSTRUMENTS ;;
       match select_best all_sigs with
       | Some best =>
           confirm_trade (sig_instrument best) (side_of best)
             (entry_price_reply e) (order_reply e) ;;;
           ret tt
       | None => ret tt
       end
   | _ :: _ => ret tt
   end)%prog.

(** ** The scheduled risk job and the heartbeat ([main.py]) *)

Record RiskEnv := {
  prices : string -> option Q;   (* get_current_price, errors caught as None *)
  put_reply : PutReply;
  risk_positions_reply : FetchReply;
  now : Q;                       (* time.time() *)
  entry_env : EntryEnv
}.

Definition job_risk_management (e : RiskEnv) : M unit :=
  (on <~ gets enabled ;;
   if negb on then ret tt
   else
     update_all_positions (prices e) (put_reply e) ;;;
     positions <~ get_live_positions (risk_positions_reply e) ;;
     match positions with
     | [] =>
         last <~ gets last_entry_time ;;
         if Qge_bool (now e - last)%Q CONDITIONAL_INTERVAL then
           job_multiframe (entry_env e) ;;;
           modify (set_last_entry_time (now e))
         else ret tt
     | _ :: _ => ret tt
     end)%prog.

End Risk.

(** [check_connection]: [reachable] tells whether the probe request
    succeeded; on failure the exception is raised again for the caller. *)
Definition check_connection (reachable : bool) : M unit :=
  if reachable then modify (set_enabled true)
  else
    (on <~ gets enabled ;;
     (if on : bool then modify (set_enabled false) else ret tt) ;;;
     raise)%prog.

(** One turn of [ConnectionMonitor.run]: the exception of a failed check is
    caught and [reconnect] waits for the broker, without touching the state. *)
Definition heartbeat (reachable : bool) : M unit :=
  fun s => match check_connection reachable s with
           | Ok a s' => Ok a s'
           | Exn s' => Ok tt s'
           end.

(** A job the scheduler finds due. *)
Inductive Due :=
| DueEntry (e : EntryEnv)
| DueRisk (e : RiskEnv).

(** [main]: the two initial runs, then [schedule.run_pending()] for the jobs
    that come due, in the main thread and without any handler. *)
Definition main (cfg : Config) (first_entry : EntryEnv) (first_risk : RiskEnv)
    (pending : list Due) : M unit :=
  (job_multiframe cfg first_entry ;;;
   job_risk_management cfg first_risk ;;;
   for_each (fun d => match d with
                      | DueEntry e => job_multiframe cfg e
                      | DueRisk e => job_risk_management cfg e
                      end) pending)%prog.

(** ** Notions used to state the properties *)

(** The running maximum of a non-empty sequence of profits, taken with the
    monitor's own [max]. *)
Definition running_max (ps : list Q) : Q :=
  match ps with
  | [] => 0
  | p :: r => fold_left py_max r p
  end.

(** A change [f] of the state carried through a result. *)
Definition res_map {A} (f : State -> State) (r : res A) : res A :=
  match r with
  | Ok a s => Ok a (f s)
  | Exn s => Exn (f s)
  end.

(** [m] neither reads nor writes what [f] changes. *)
Definition blind_to {A} (f : State -> State) (m : M A) : Prop :=
  forall s, m (f s) = res_map f (m s).

(** A run of the exit monitor on one open trade [t], seen from its peak
    record: [observes cfg t s0 ps s] holds when the monitor looked at [t]
    once per element of [ps], each time outside any cooldown, with that
    profit, below the take-profit level, and without issuing a request.
    Between two looks anything may happen to the state (other trades, other
    threads) except to the peak record of [t]. *)
Inductive observes (cfg : Config) (t : Trade) : State -> list Q -> State -> Prop :=
| observes_none (s : State) : observes cfg t s [] s
| observes_next (s0 s1 s1' s2 : State) (ps : list Q) (e : StepEnv) (p : Q) :
    observes cfg t s0 ps s1 ->
    peaks s1' !! t_id t = peaks s1 !! t_id t ->
    in_cooldown cfg (t_instrument t) (clock_check e) s1' = false ->
    current_profit t e s1' = Ok (Some p) s1' ->
    (p < inject_Z (TAKE_PROFIT_PIPS cfg))%Q ->
    monitor_trade cfg (t, e) s1' = Ok tt s2 ->
    sent s2 = sent s1' ->
    observes cfg t s0 (ps ++ [p]) s2.

(** What [get_live_positions] leaves in [active_trade] for a given reply. *)
Definition refreshed (reply : FetchReply) : option Position :=
  snd <$> head (positions_of match reply with
                              | FetchOk trades => trades
                              | FetchError => []
                              end).

(** The state once [update_predicted_profit inst profit] has run. *)
Definition publish (inst : string) (profit : Q) (stamp : string) (s : State)
  : State :=
  set_shared_risk_data
    (<[inst := {| predicted_profit_pips := profit; last_update := stamp |}]>
       (shared_risk_data s)) s.

(** A round of the monitor in which the profit-monitor thread has just
    published [profit] for the instrument of [t] and the broker reports [t]
    as the only open trade. *)
Definition reported (t : Trade) (profit : Q) (stamp : string) (e : StepEnv)
  : CycleEnv :=
  {| profit_updates := [(t_instrument t, profit, stamp)];
     open_trades := FetchOk [t];
     replies := [e] |}.

(** ** Sample inputs *)

(** A long EUR_USD trade of 1000 units entered at 1.1000. *)
Definition eur_trade : Trade :=
  {| t_id := "1"; t_instrument := "EUR_USD"; t_price := 11000 # 10000;
     t_initialUnits := 1000; t_currentUnits := Some (inject_Z 1000) |}.

Definition eur_position : Position :=
  {| trade_id := "1"; pos_instrument := "EUR_USD";
     entry_price := 11000 # 10000; side := long |}.

(** Replies of a world in which every call succeeds at time [now]. *)
Definition step_at (now : Q) (mid : Q) : StepEnv :=
  {| clock_check := now; price_reply := PriceOk mid;
     close_reply := CloseOk; clock_close := now |}.

(** The predictor has an opinion on EUR_USD at M5 only: BUY, 60 pips. *)
Definition eur_buy_60 (inst gran : string) : option Signal :=
  if (String.eqb inst "EUR_USD" && String.eqb gran "M5")%bool then
    Some {| sig_instrument := "EUR_USD"; timeframe := "M5"; signal := BUY;
            predicted_pips := 60; trailing_pips := 5 |}
  else None.

(** An entry evaluation with no open position at the broker and the
    EUR_USD signal above. *)
Definition flat_entry : EntryEnv :=
  {| positions_reply := FetchOk [];
     positions_reply_log := FetchOk [];
     signal_error := fun _ _ => false;
     generate_signal := eur_buy_60;
     entry_price_reply := PriceOk (11000 # 10000);
     order_reply := OrderFilled "7" |}.

(** An entry evaluation while the broker reports [eur_trade] open. *)
Definition busy_entry : EntryEnv :=
  {| positions_reply := FetchOk [eur_trade];
     positions_reply_log := FetchOk [eur_trade];
     signal_error := fun _ _ => false;
     generate_signal := eur_buy_60;
     entry_price_reply := PriceOk (11000 # 10000);
     order_reply := OrderFilled "7" |}.

(** EUR_USD was closed by the trailing monitor at time 1000. *)
Definition after_close : State :=
  set_recently_closed {[ "EUR_USD" := 1000%Q ]} initial_state.

(** The risk job of the next minute: nothing is open any more. *)
Definition risk_job_at_1060 : RiskEnv :=
  {| prices := fun _ => Some (11000 # 10000)%Q;
     put_reply := Put200;
     risk_positions_reply := FetchOk [];
     now := 1060;
     entry_env := flat_entry |}.

(** [RiskManager] tracks [eur_trade]; the shared cache and the peak table
    hold its last profit, 60 pips. *)
Definition tracking : State :=
  set_shared_risk_data
    {[ "EUR_USD" := {| predicted_profit_pips := 60; last_update := "t" |} ]}
    (set_peaks {[ "1" := 60%Q ]}
       (set_active_trade (Some eur_position) initial_state)).

(** The mid price 1.1080 puts [eur_trade] 80 pips in profit. *)
Definition prices_at_80 (inst : string) : option Q :=
  if String.eqb inst "EUR_USD" then Some (11080 # 10000)%Q else None.

(** A round of the monitor in which the pricing request for the only open
    trade fails with an HTTP error. *)
Definition price_error_round : CycleEnv :=
  {| profit_updates := [];
     open_trades := FetchOk [eur_trade];
     replies := [ {| clock_check := 100; price_reply := PriceError;
                     close_reply := CloseOk; clock_close := 100 |} ] |}.

(** A round in which the close request of a take-profit is refused. *)
Definition close_error_round : CycleEnv :=
  {| profit_updates := [("EUR_USD", 75%Q, "t")];
     open_trades := FetchOk [eur_trade];
     replies := [ {| clock_check := 100; price_reply := PriceEmpty;
                     close_reply := CloseError; clock_close := 100 |} ] |}.

(** An entry evaluation whose order request is refused. *)
Definition refused_entry : EntryEnv :=
  {| positions_reply := FetchOk [];
     positions_reply_log := FetchOk [];
     signal_error := fun _ _ => false;
     generate_signal := eur_buy_60;
     entry_price_reply := PriceOk (11000 # 10000);
     order_reply := OrderError |}.

(** A round in which [eur_trade] shows 75 pips of profit. *)
Definition take_profit_round : CycleEnv :=
  reported eur_trade 75 "t" (step_at 100 (11075 # 10000)).

(** The state after a failed heartbeat. *)
Definition disconnected : State := set_enabled false initial_state.

(** A long GBP_USD trade of 1000 units entered at 1.3000. *)
Definition gbp_trade : Trade :=
  {| t_id := "2"; t_instrument := "GBP_USD"; t_price := 13000 # 10000;
     t_initialUnits := 1000; t_currentUnits := Some (inject_Z 1000) |}.

(** A round over two open trades: nothing is cached for [eur_trade] and its
    price fetch is answered by [reply]; the cache shows 75 pips of profit
    for [gbp_trade]. *)
Definition two_trades_round (reply : PriceReply) : CycleEnv :=
  {| profit_updates := [("GBP_USD", 75%Q, "t")];
     open_trades := FetchOk [eur_trade; gbp_trade];
     replies := [ {| clock_check := 100; price_reply := reply;
                     close_reply := CloseOk; clock_close := 100 |};
                  step_at 100 (13075 # 10000) ] |}.

(** ** Further functions of the modelled modules *)

(** [shared_data.reset_shared_risk_data] *)
Definition reset_shared_risk_data : M unit :=
  modify (set_shared_risk_data ∅).

(** [RiskManager.calculate_profit], the float subtraction and division taken
    as the rational ones. *)
Definition calculate_profit (trade : Position) (price : Q) : Q :=
  let pip := pip_size (pos_instrument trade) in
  match side trade with
  | long => ((price - entry_price trade) / pip)%Q
  | short => ((entry_price trade - price) / pip)%Q
  end.

(** Python's [min(a, b)]: the first argument unless the second is strictly
    smaller. *)
Definition py_min (a b : Q) : Q := if Qlt_bool b a then b else a.

(** [pinhead_indicator.py]: strategy parameters. *)
Definition MIN_TRAILING_PIPS : Q := 1.
Definition MAX_TRAILING_PIPS : Q := 10.
Definition BUY_THRESHOLD : Q := 3 # 1000.
Definition SELL_THRESHOLD : Q := - (3 # 1000).

(** What [model.predict] returns for one row: a single number (the model
    trained on trade history) or a pair (return, trailing range). *)
Inductive Prediction :=
| Single (profit_pips : Q)
| Paired (ret raw_tr : Q).

(** The end of [pinhead_indicator.generate_signal], from the prediction on:
    here the pip size is chosen by ['JPY' in inst], without [upper]. *)
Definition signal_of_prediction (inst gran : string) (pred : Prediction)
  : Signal :=
  let '(profit_pips, trailing) :=
    match pred with
    | Single p => (p, MIN_TRAILING_PIPS)
    | Paired ret raw_tr =>
        let pip := if contains "JPY" inst then (1 # 100)%Q else (1 # 10000)%Q in
        let tr_pips := (raw_tr / pip)%Q in
        ((ret / pip)%Q,
         py_max MIN_TRAILING_PIPS (py_min tr_pips MAX_TRAILING_PIPS))
    end in
  let sig := if Qlt_bool BUY_THRESHOLD profit_pips then BUY
             else if Qlt_bool profit_pips SELL_THRESHOLD then SELL
             else HOLD in
  {| sig_instrument := inst; timeframe := gran; signal := sig;
     predicted_pips := profit_pips; trailing_pips := trailing |}.

(** [generate_signal] with the model and its prediction as an input: no
    model, no signal. *)
Definition generate_signal_from (predict : string -> string -> option Prediction)
    (inst gran : string) : option Signal :=
  signal_of_prediction inst gran <$> predict inst gran.

(** [ConnectionMonitor.run] over the probes the world answers. *)
Definition connection_monitor (probes : list bool) : M unit :=
  for_each heartbeat probes.

(** ** Further notions used to state the properties *)

(** The profit last written for [inst] by a series of
    [update_predicted_profit] calls, if any. *)
Fixpoint last_write (inst : string) (ws : list (string * Q * string))
  : option Q :=
  match ws with
  | [] => None
  | (i, p, _) :: ws' =>
      match last_write inst ws' with
      | Some q => Some q
      | None => if String.eqb i inst then Some p else None
      end
  end.

(** The last trade of a list that is on instrument [inst]. *)
Fixpoint last_trade_on (inst : string) (trades : list Trade) : option Trade :=
  match trades with
  | [] => None
  | t :: ts =>
      match last_trade_on inst ts with
      | Some t' => Some t'
      | None => if String.eqb (t_instrument t) inst then Some t else None
      end
  end.

(** Lookup in a Python [dict] held as a list of items. *)
Fixpoint dict_get (k : string) (d : list (string * Position)) : option Position :=
  match d with
  | [] => None
  | (k', v) :: d' => if String.eqb k' k then Some v else dict_get k d'
  end.

(** An entry evaluation with another reply to the deciding fetch. *)
Definition with_positions_reply (reply : FetchReply) (e : EntryEnv) : EntryEnv :=
  {| positions_reply := reply;
     positions_reply_log := positions_reply_log e;
     signal_error := signal_error e;
     generate_signal := generate_signal e;
     entry_price_reply := entry_price_reply e;
     order_reply := order_reply e |}.

(** All signals an entry evaluation collects when every call of
    [generate_signal] returns, in the order of collection. *)
Definition collected (e : EntryEnv) : list Signal :=
  flat_map (fun inst =>
              returned_signals (generate_signal e) inst
                ["M5"; "M15"; "H1"]) INSTRUMENTS.

(** The requests of a log that are market orders. *)
Definition orders (l : list Request) : list Request :=
  List.filter (fun r => match r with MarketOrder _ _ _ _ => true | _ => false end) l.

(** ** [trade_profit_monitor.py] *)

(** The dictionaries [fetch_trade_data] returns. *)
Record Snapshot := {
  snap_trade_id : string;
  snap_instrument : string;
  calculated_profit_pips : Q;
  unrealized_pl_usd : Q
}.

(** Rows of the table [trade_profits], whose primary key is the pair of
    trade id and timestamp, and of the table [trade_history], whose primary
    key is the trade id.  Timestamps are [datetime.now()] readings, held as
    microseconds; the tables store their ISO print, which sorts alike. *)
Record ProfitRow := {
  row_instrument : string;
  row_profit_pips : Q;
  row_profit_usd : Q
}.

Record HistoryRow := {
  hist_instrument : string;
  final_profit_pips : Q;
  final_profit_usd : Q;
  close_timestamp : Z
}.

(** The state of the profit monitor: the module-level set [detected_open]
    and the two tables. *)
Record ProfitDb := {
  detected_open : gset string;
  trade_profits : gmap (string * Z) ProfitRow;
  trade_history : gmap string HistoryRow
}.

(** One trade of the broker's reply, with what the world answers while the
    profit monitor works on it: its [unrealizedPL], the reply of
    [get_current_price] (errors caught as none), the [utcnow] print used for
    the shared cache, and the [now] reading taken when its snapshot row is
    written. *)
Record Quote := {
  q_trade : Trade;
  q_unrealizedPL : Q;
  q_price : option Q;
  q_stamp : string;
  q_snapshot_time : Z
}.

Inductive TradesReply :=
| TradesOk (quotes : list Quote)
| TradesError.

Record MonitorEnv := {
  trades_reply : TradesReply;
  close_time : string -> Z   (* now() when the history row of a trade is written *)
}.

(** The profit expression of [fetch_trade_data]: short exactly when the
    printed [initialUnits] start with a minus sign. *)
Definition monitor_profit_pips (t : Trade) (current : Q) : Q :=
  let pip := pip_size (t_instrument t) in
  if (t_initialUnits t <? 0)%Z then ((t_price t - current) / pip)%Q
  else ((current - t_price t) / pip)%Q.

(** The body of the loop over the reported trades: a trade without price is
    skipped, a priced one is published to the shared cache and appended to
    [open_trades]. *)
Fixpoint quote_trades (qs : list Quote) : M (list (Snapshot * Z)) :=
  match qs with
  | [] => ret []
  | q :: qs' =>
      match q_price q with
      | None => quote_trades qs'
      | Some current =>
          let t := q_trade q in
          let profit_pips := monitor_profit_pips t current in
          (update_predicted_profit (t_instrument t) profit_pips (q_stamp q) ;;;
           rest <~ quote_trades qs' ;;
           ret (({| snap_trade_id := t_id t;
                    snap_instrument := t_instrument t;
                    calculated_profit_pips := profit_pips;
                    unrealized_pl_usd := q_unrealizedPL q |},
                 q_snapshot_time q) :: rest))%prog
      end
  end.

(** [SELECT ... WHERE trade_id = ? ORDER BY timestamp DESC LIMIT 1] *)
Definition latest_snapshot (tid : string) (tbl : gmap (string * Z) ProfitRow)
  : option (Z * ProfitRow) :=
  foldr (fun kv acc =>
           let '((id, ts), row) := kv in
           if String.eqb id tid then
             match acc with
             | Some (ts', row') =>
                 if (ts' <? ts)%Z then Some (ts, row) else Some (ts', row')
             | None => Some (ts, row)
             end
           else acc)
        None (map_to_list tbl).

(** [record_trade_history]: each closed trade that has a snapshot gets a
    history row from its last snapshot. *)
Definition record_closed (close_time : string -> Z)
    (tbl : gmap (string * Z) ProfitRow) (tid : string)
    (hist : gmap string HistoryRow) : gmap string HistoryRow :=
  match latest_snapshot tid tbl with
  | Some (_, row) =>
      <[tid := {| hist_instrument := row_instrument row;
                  final_profit_pips := row_profit_pips row;
                  final_profit_usd := row_profit_usd row;
                  close_timestamp := close_time tid |}]> hist
  | None => hist
  end.

Definition record_trade_history (close_time : string -> Z)
    (closed_ids : gset string) (db : ProfitDb) : ProfitDb :=
  {| detected_open := detected_open db;
     trade_profits := trade_profits db;
     trade_history := foldr (record_closed close_time (trade_profits db))
                        (trade_history db) (elements closed_ids) |}.

(** [update_trade_profits_database]: one [INSERT OR REPLACE] per snapshot,
    in list order. *)
Definition update_trade_profits_database (rows : list (Snapshot * Z))
    (db : ProfitDb) : ProfitDb :=
  {| detected_open := detected_open db;
     trade_profits :=
       fold_left (fun tbl r =>
                    <[(snap_trade_id r.1, r.2) :=
                        {| row_instrument := snap_instrument r.1;
                           row_profit_pips := calculated_profit_pips r.1;
                           row_profit_usd := unrealized_pl_usd r.1 |}]> tbl)
         rows (trade_profits db);
     trade_history := trade_history db |}.

(** [fetch_trade_data]: the [try] around the request and the loop turns a
    failed request into an empty list of open trades. *)
Definition fetch_trade_data (env : MonitorEnv) (db : ProfitDb)
  : M (list Snapshot * ProfitDb) :=
  (open_trades <~ match trades_reply env with
                  | TradesOk quotes => quote_trades quotes
                  | TradesError => ret []
                  end ;;
   let current_ids : gset string :=
     list_to_set (snap_trade_id <$> open_trades.*1) in
   let closed_ids := detected_open db ∖ current_ids in
   let db1 := record_trade_history (close_time env) closed_ids db in
   let db2 := {| detected_open := current_ids;
                 trade_profits := trade_profits db1;
                 trade_history := trade_history db1 |} in
   ret (open_trades.*1, update_trade_profits_database open_trades db2))%prog.

(** The priced trades of a reply, as the calls of [update_predicted_profit]
    they cause. *)
Definition published (qs : list Quote) : list (string * Q * string) :=
  omap (fun q => match q_price q with
                 | Some current =>
                     Some (t_instrument (q_trade q),
                           monitor_profit_pips (q_trade q) current, q_stamp q)
                 | None => None
                 end) qs.

(** The ids of the priced trades of a reply. *)
Definition priced_ids (reply : TradesReply) : gset string :=
  match reply with
  | TradesOk qs =>
      list_to_set (omap (fun q => match q_price q with
                                  | Some _ => Some (t_id (q_trade q))
                                  | None => None
                                  end) qs)
  | TradesError => ∅
  end.

(** * Properties *)

(** ** Comparisons *)

Lemma Qge_bool_iff (a b : Q) : Qge_bool a b = true <-> (b <= a)%Q.
Proof. unfold Qge_bool. apply Qle_bool_iff. Qed.

Lemma Qge_bool_false (a b : Q) : Qge_bool a b = false <-> (a < b)%Q.
Proof.
  unfold Qge_bool. split; intros H.
  - apply Qnot_le_lt. intros Hle. apply Qle_bool_iff in Hle. congruence.
  - destruct (Qle_bool b a) eqn:E; [|reflexivity].
    apply Qle_bool_iff in E. exfalso. revert E. apply Qlt_not_le, H.
Qed.

Lemma Qlt_bool_iff (a b : Q) : Qlt_bool a b = true <-> (a < b)%Q.
Proof.
  unfold Qlt_bool. rewrite negb_true_iff. apply (Qge_bool_false a b).
Qed.

Lemma Qlt_bool_false (a b : Q) : Qlt_bool a b = false <-> (b <= a)%Q.
Proof.
  unfold Qlt_bool. rewrite negb_false_iff. apply Qle_bool_iff.
Qed.

Lemma py_max_same (a : Q) : py_max a a = a.
Proof. unfold py_max. destruct (Qlt_bool a a); reflexivity. Qed.

Lemma py_max_cases (a b : Q) :
  (py_max a b = a /\ (b <= a)%Q) \/ (py_max a b = b /\ (a < b)%Q).
Proof.
  unfold py_max. destruct (Qlt_bool a b) eqn:E.
  - right. split; [reflexivity|]. apply Qlt_bool_iff, E.
  - left. split; [reflexivity|]. apply Qlt_bool_false, E.
Qed.

Lemma py_max_l (a b : Q) : (a <= py_max a b)%Q.
Proof.
  destruct (py_max_cases a b) as [[-> _]|[-> H]];
    [apply Qle_refl | apply Qlt_le_weak, H].
Qed.

Lemma py_max_r (a b : Q) : (b <= py_max a b)%Q.
Proof.
  destruct (py_max_cases a b) as [[-> H]|[-> _]]; [exact H | apply Qle_refl].
Qed.

Lemma running_max_snoc (ps : list Q) (p : Q) :
  ps <> [] -> running_max (ps ++ [p]) = py_max (running_max ps) p.
Proof.
  destruct ps as [|q r]; [congruence|]. intros _.
  simpl. apply fold_left_app.
Qed.

Lemma fold_py_max_bounds (r : list Q) (a : Q) :
  (a <= fold_left py_max r a)%Q /\
  Forall (fun p => (p <= fold_left py_max r a)%Q) r /\
  (fold_left py_max r a = a \/ In (fold_left py_max r a) r).
Proof.
  revert a. induction r as [|x r IH]; intros a; simpl.
  - split; [apply Qle_refl|]. split; [constructor | left; reflexivity].
  - destruct (IH (py_max a x)) as (Hle & Hall & Hin).
    split; [eapply Qle_trans; [apply py_max_l | exact Hle]|].
    split.
    + constructor; [eapply Qle_trans; [apply py_max_r | exact Hle] | exact Hall].
    + destruct Hin as [Heq|Hin]; [|right; right; exact Hin].
      rewrite Heq. destruct (py_max_cases a x) as [[-> _]|[-> _]];
        [left; reflexivity | right; left; reflexivity].
Qed.

(** [running_max] is the maximum: a member that bounds every member. *)
Lemma running_max_is_max (ps : list Q) :
  ps <> [] ->
  In (running_max ps) ps /\ Forall (fun p => (p <= running_max ps)%Q) ps.
Proof.
  destruct ps as [|q r]; [congruence|]. intros _. simpl.
  destruct (fold_py_max_bounds r q) as (Hle & Hall & Hin). split.
  - destruct Hin as [->|Hin]; [left; reflexivity | right; exact Hin].
  - constructor; assumption.
Qed.

(** ** Loops *)

Lemma for_each_cons {A} (body : A -> M unit) (x : A) (l : list A) (s : State) :
  for_each body (x :: l) s =
    match body x s with
    | Ok _ s' => for_each body l s'
    | Exn s' => Exn s'
    end.
Proof. reflexivity. Qed.

Lemma for_each_app {A} (body : A -> M unit) (l1 l2 : list A) (s : State) :
  for_each body (l1 ++ l2) s =
    match for_each body l1 s with
    | Ok _ s' => for_each body l2 s'
    | Exn s' => Exn s'
    end.
Proof.
  revert s. induction l1 as [|x l1 IH]; intros s; [reflexivity|].
  rewrite <- app_comm_cons, !for_each_cons.
  destruct (body x s) as [[] s'|s']; [apply IH | reflexivity].
Qed.

(** An exception ends the loop: what follows is not run. *)
Lemma for_each_raised {A} (body : A -> M unit) (x : A) (l : list A) (s s' : State) :
  body x s = Exn s' -> for_each body (x :: l) s = Exn s'.
Proof. intros H. rewrite for_each_cons, H. reflexivity. Qed.

(** ** State bookkeeping *)

Lemma set_peaks_id (s : State) : set_peaks (peaks s) s = s.
Proof. destruct s; reflexivity. Qed.

Lemma set_active_trade_id (s : State) : set_active_trade (active_trade s) s = s.
Proof. destruct s; reflexivity. Qed.

Lemma set_active_trade_twice (a b : option Position) (s : State) :
  set_active_trade a (set_active_trade b s) = set_active_trade a s.
Proof. reflexivity. Qed.

(** ** The exit monitor, branch by branch *)

Section TrailingFacts.

Variable cfg : Config.

(** The unexpired-cooldown test in terms of the stored close time. *)
Lemma in_cooldown_iff (inst : string) (now : Q) (s : State) :
  in_cooldown cfg inst now s = true <->
  exists closed_at, recently_closed s !! inst = Some closed_at /\
                    (now - closed_at < inject_Z (COOLDOWN_PERIOD cfg))%Q.
Proof.
  unfold in_cooldown. destruct (recently_closed s !! inst) as [c|].
  - rewrite Qlt_bool_iff. split.
    + intros H; exists c; split; [reflexivity | exact H].
    + intros (c' & [= <-] & H); exact H.
  - split; [discriminate | intros (c' & [=] & _)].
Qed.

Lemma monitor_trade_cooldown (t : Trade) (e : StepEnv) (s : State) :
  in_cooldown cfg (t_instrument t) (clock_check e) s = true ->
  monitor_trade cfg (t, e) s = Ok tt s.
Proof.
  intros H. unfold monitor_trade, bind, gets. rewrite H. reflexivity.
Qed.

(** Reading the profit never changes the state. *)
Lemma current_profit_final (t : Trade) (e : StepEnv) (s : State) :
  final (current_profit t e s) = s.
Proof.
  unfold current_profit, bind, get_predicted_profit, gets, fetch_current_price.
  destruct (predicted_profit_pips <$> shared_risk_data s !! t_instrument t);
    [reflexivity|].
  destruct (price_reply e); reflexivity.
Qed.

Lemma monitor_trade_active (t : Trade) (e : StepEnv) (s : State) :
  in_cooldown cfg (t_instrument t) (clock_check e) s = false ->
  monitor_trade cfg (t, e) s =
    match current_profit t e s with
    | Ok (Some p) s' => evaluate cfg t e p s'
    | Ok None s' => Ok tt s'
    | Exn s' => Exn s'
    end.
Proof.
  intros H. unfold monitor_trade, bind at 1, gets. rewrite H.
  unfold bind. destruct (current_profit t e s) as [[p|] s'|s']; reflexivity.
Qed.

Lemma monitor_trade_observed (t : Trade) (e : StepEnv) (s : State) (p : Q) :
  in_cooldown cfg (t_instrument t) (clock_check e) s = false ->
  current_profit t e s = Ok (Some p) s ->
  monitor_trade cfg (t, e) s = evaluate cfg t e p s.
Proof.
  intros H Hp. rewrite monitor_trade_active by exact H. rewrite Hp. reflexivity.
Qed.

Lemma evaluate_take_profit (t : Trade) (e : StepEnv) (p : Q) (s : State) :
  (inject_Z (TAKE_PROFIT_PIPS cfg) <= p)%Q ->
  evaluate cfg t e p s = close_trade_by_id (t_id t) (t_instrument t) e s.
Proof.
  intros H. apply Qge_bool_iff in H. unfold evaluate. rewrite H. reflexivity.
Qed.

(** Below the take-profit level the peak is written first; the trailing
    test then decides between holding and closing. *)
Lemma evaluate_below (t : Trade) (e : StepEnv) (p : Q) (s : State) :
  (p < inject_Z (TAKE_PROFIT_PIPS cfg))%Q ->
  let new_peak := py_max (default p (peaks s !! t_id t)) p in
  let s1 := set_peaks (<[t_id t := new_peak]> (peaks s)) s in
  evaluate cfg t e p s =
    if (Qge_bool new_peak (inject_Z (ACTIVATION_THRESHOLD cfg))
        && Qge_bool (new_peak - p)%Q (inject_Z (TRAILING_GAP cfg)))%bool
    then close_trade_by_id (t_id t) (t_instrument t) e s1
    else Ok tt s1.
Proof.
  intros H. apply Qge_bool_false in H. unfold evaluate. rewrite H.
  cbv zeta. unfold bind, gets, modify, ret.
  destruct (Qge_bool _ (inject_Z (ACTIVATION_THRESHOLD cfg))); simpl;
    [|reflexivity].
  destruct (Qge_bool _ (inject_Z (TRAILING_GAP cfg))); reflexivity.
Qed.

(** What a close does to the state, for either reply. *)
Lemma close_trade_by_id_ok (tid inst : string) (e : StepEnv) (s : State) :
  close_reply e = CloseOk ->
  close_trade_by_id tid inst e s =
    Ok tt
      (set_shared_risk_data (delete inst (shared_risk_data s))
         (set_peaks (delete tid (peaks s))
            (set_recently_closed (<[inst := clock_close e]> (recently_closed s))
               (send (TradeClose tid) s)))).
Proof.
  intros H. unfold close_trade_by_id, bind, modify, clear_predicted_profit.
  rewrite H. reflexivity.
Qed.

Lemma close_trade_by_id_error (tid inst : string) (e : StepEnv) (s : State) :
  close_reply e = CloseError ->
  close_trade_by_id tid inst e s = Exn (send (TradeClose tid) s).
Proof.
  intros H. unfold close_trade_by_id, bind, modify. rewrite H. reflexivity.
Qed.

Lemma close_trade_by_id_sent (tid inst : string) (e : StepEnv) (s : State) :
  sent (final (close_trade_by_id tid inst e s)) = (sent s ++ [TradeClose tid])%list.
Proof.
  destruct (close_reply e) eqn:H.
  - rewrite close_trade_by_id_ok by exact H. reflexivity.
  - rewrite close_trade_by_id_error by exact H. reflexivity.
Qed.

Lemma close_trade_by_id_peaks (tid inst : string) (e : StepEnv) (s : State) :
  peaks (final (close_trade_by_id tid inst e s)) =
    match close_reply e with
    | CloseOk => delete tid (peaks s)
    | CloseError => peaks s
    end.
Proof.
  destruct (close_reply e) eqn:H.
  - rewrite close_trade_by_id_ok by exact H. reflexivity.
  - rewrite close_trade_by_id_error by exact H. reflexivity.
Qed.

End TrailingFacts.

(** ** Cooldown in the exit monitor *)

(** C10: in a round of the exit monitor, an open trade whose instrument was
    closed less than [COOLDOWN_PERIOD] seconds before the round's clock
    reading is passed over: whatever the price feed and the broker would
    answer, the step ends normally in the very state it started in, so no
    take-profit test, no peak update and no close request take place. *)
Theorem cooldown_skips_evaluation
    (cfg : Config) (t : Trade) (e : StepEnv) (s : State) (closed_at : Q) :
  recently_closed s !! t_instrument t = Some closed_at ->
  (clock_check e - closed_at < inject_Z (COOLDOWN_PERIOD cfg))%Q ->
  monitor_trade cfg (t, e) s = Ok tt s /\
  peaks (final (monitor_trade cfg (t, e) s)) = peaks s /\
  sent (final (monitor_trade cfg (t, e) s)) = sent s.
Proof.
  intros Hc Hlt.
  assert (H : monitor_trade cfg (t, e) s = Ok tt s).
  { apply monitor_trade_cooldown, in_cooldown_iff. eauto. }
  rewrite H. auto.
Qed.

Lemma cooldown_skips_evaluation_witness :
  let s := set_recently_closed {[ "EUR_USD" := 1000%Q ]} tracking in
  let e := step_at 1060 (11075 # 10000) in
  monitor_trade default_config (eur_trade, e) s = Ok tt s /\
  peaks (final (monitor_trade default_config (eur_trade, e) s)) = peaks s /\
  sent (final (monitor_trade default_config (eur_trade, e) s)) = sent s.
Proof.
  apply (cooldown_skips_evaluation default_config eur_trade
           (step_at 1060 (11075 # 10000))
           (set_recently_closed {[ "EUR_USD" := 1000%Q ]} tracking) 1000%Q).
  - reflexivity.
  - reflexivity.
Defined.

(** ** Failed price fetch *)

(** When the shared cache holds no profit for the instrument of an open
    trade and the price fetch fails (an empty price list or an error of the
    request), the step on that trade leaves the whole state as it was: the
    peak record is not written and no close is requested.  With an empty
    price list the step ends normally and the loop goes on to the next
    trade. *)
Theorem failed_price_fetch_changes_nothing
    (cfg : Config) (t : Trade) (e : StepEnv) (s : State) :
  shared_risk_data s !! t_instrument t = None ->
  price_reply e = PriceEmpty \/ price_reply e = PriceError ->
  final (monitor_trade cfg (t, e) s) = s /\
  peaks (final (monitor_trade cfg (t, e) s)) !! t_id t = peaks s !! t_id t /\
  sent (final (monitor_trade cfg (t, e) s)) = sent s /\
  (price_reply e = PriceEmpty ->
   forall rest, for_each (monitor_trade cfg) ((t, e) :: rest) s =
                for_each (monitor_trade cfg) rest s).
Proof.
  intros Hs Hf.
  assert (Hp : current_profit t e s =
               match price_reply e with
               | PriceOk c => Ok (Some (computed_profit t c)) s
               | PriceEmpty => Ok None s
               | PriceError => Exn s
               end).
  { unfold current_profit, bind, get_predicted_profit, gets.
    rewrite Hs. simpl. destruct (price_reply e); reflexivity. }
  assert (Hm : monitor_trade cfg (t, e) s = Ok tt s \/
               (price_reply e = PriceError /\ monitor_trade cfg (t, e) s = Exn s)).
  { destruct (in_cooldown cfg (t_instrument t) (clock_check e) s) eqn:Hc.
    - left. apply monitor_trade_cooldown, Hc.
    - rewrite monitor_trade_active by exact Hc. rewrite Hp.
      destruct Hf as [-> | ->]; [left | right]; auto. }
  destruct Hm as [Hm | [He Hm]].
  - rewrite Hm. repeat split; trivial.
    intros _ rest. rewrite for_each_cons, Hm. reflexivity.
  - rewrite Hm. repeat split; trivial.
    intros He'. congruence.
Qed.

Lemma failed_price_fetch_changes_nothing_witness :
  let e := {| clock_check := 100; price_reply := PriceEmpty;
              close_reply := CloseOk; clock_close := 100 |} in
  let r := monitor_trade default_config (eur_trade, e) initial_state in
  final r = initial_state /\
  peaks (final r) !! "1" = peaks initial_state !! "1" /\
  sent (final r) = sent initial_state /\
  (price_reply e = PriceEmpty ->
   forall rest,
     for_each (monitor_trade default_config) ((eur_trade, e) :: rest)
       initial_state =
     for_each (monitor_trade default_config) rest initial_state).
Proof.
  apply (failed_price_fetch_changes_nothing default_config eur_trade
           {| clock_check := 100; price_reply := PriceEmpty;
              close_reply := CloseOk; clock_close := 100 |} initial_state).
  - reflexivity.
  - left. reflexivity.
Defined.

(** C7 (the code at the failing input): two trades are open, nothing is
    cached for the first and the cache shows 75 pips for the second.  When
    the price fetch for the first returns an empty price list, the first is
    skipped and the second is closed at its take-profit.  When the request
    for the first fails with an error, nothing is written either, but the
    first is not merely skipped: the round ends with the exception, the
    second trade is never looked at, and no later round runs. *)
Theorem price_error_is_not_a_skip :
  let s := publish "GBP_USD" 75 "t" initial_state in
  sent (final (monitor_cycle default_config (two_trades_round PriceEmpty)
                 initial_state)) = [TradeClose "2"] /\
  monitor_cycle default_config (two_trades_round PriceError) initial_state
    = Exn s /\
  peaks s = peaks initial_state /\
  sent s = [] /\
  forall later,
    live_trailing_stop_monitor default_config
      (two_trades_round PriceError :: later) initial_state = Exn s.
Proof.
  cbv zeta.
  assert (H : monitor_cycle default_config (two_trades_round PriceError)
                initial_state = Exn (publish "GBP_USD" 75 "t" initial_state))
    by reflexivity.
  split; [reflexivity|]. split; [exact H|]. split; [reflexivity|].
  split; [reflexivity|].
  intros later. unfold live_trailing_stop_monitor.
  rewrite for_each_cons, H. reflexivity.
Qed.

(** ** Take-profit precedence *)

(** C4 (as the code has it): when the monitor observes, for an open trade
    whose instrument is in no cooldown, a profit of at least
    [TAKE_PROFIT_PIPS], the step on that trade is exactly the close of the
    trade, started from the untouched state: one close request is issued,
    and neither the peak update nor the trailing test runs, whatever peak
    was stored before. *)
Theorem take_profit_closes_first
    (cfg : Config) (t : Trade) (e : StepEnv) (s : State) (p : Q) :
  in_cooldown cfg (t_instrument t) (clock_check e) s = false ->
  current_profit t e s = Ok (Some p) s ->
  (inject_Z (TAKE_PROFIT_PIPS cfg) <= p)%Q ->
  monitor_trade cfg (t, e) s = close_trade_by_id (t_id t) (t_instrument t) e s /\
  sent (final (monitor_trade cfg (t, e) s)) = (sent s ++ [TradeClose (t_id t)])%list /\
  peaks (final (monitor_trade cfg (t, e) s)) =
    match close_reply e with
    | CloseOk => delete (t_id t) (peaks s)
    | CloseError => peaks s
    end.
Proof.
  intros Hc Hp Htp.
  assert (H : monitor_trade cfg (t, e) s =
              close_trade_by_id (t_id t) (t_instrument t) e s).
  { rewrite (monitor_trade_observed cfg t e s p Hc Hp).
    apply evaluate_take_profit, Htp. }
  rewrite H. split; [reflexivity|]. split.
  - apply close_trade_by_id_sent.
  - apply close_trade_by_id_peaks.
Qed.

Lemma take_profit_closes_first_witness :
  let s := set_shared_risk_data
             {[ "EUR_USD" := {| predicted_profit_pips := 75; last_update := "t" |} ]}
             (set_peaks {[ "1" := 12%Q ]} initial_state) in
  let e := step_at 100 (11075 # 10000) in
  monitor_trade default_config (eur_trade, e) s =
    close_trade_by_id "1" "EUR_USD" e s /\
  sent (final (monitor_trade default_config (eur_trade, e) s)) = [TradeClose "1"] /\
  peaks (final (monitor_trade default_config (eur_trade, e) s)) =
    delete "1" (peaks s).
Proof.
  apply (take_profit_closes_first default_config eur_trade
           (step_at 100 (11075 # 10000))
           (set_shared_risk_data
              {[ "EUR_USD" := {| predicted_profit_pips := 75; last_update := "t" |} ]}
              (set_peaks {[ "1" := 12%Q ]} initial_state)) 75%Q).
  - reflexivity.
  - reflexivity.
  - vm_compute. discriminate.
Defined.

(** Counterexample to C4 as stated: EUR_USD was closed at time 1000 and a
    trade on it is open again; in the round of time 1060 the shared cache
    shows 75 pips of profit for it, above the take-profit level of 70, yet
    the instrument is still in its cooldown and the round passes the trade
    over: no close is requested. *)
Lemma take_profit_waits_for_cooldown :
  let round := reported eur_trade 75 "t" (step_at 1060 (11075 # 10000)) in
  let s := publish "EUR_USD" 75 "t" after_close in
  recently_closed after_close !! "EUR_USD" = Some 1000%Q /\
  get_predicted_profit "EUR_USD" s = Ok (Some 75%Q) s /\
  (inject_Z (TAKE_PROFIT_PIPS default_config) <= 75)%Q /\
  monitor_cycle default_config round after_close = Ok tt s /\
  sent s = [].
Proof.
  cbv zeta. split; [reflexivity|]. split; [reflexivity|].
  split; [vm_compute; discriminate|]. split; reflexivity.
Qed.

(** ** Peak tracking *)

Lemma snoc_neq {A} (l : list A) (x : A) : (l ++ [x])%list <> l.
Proof.
  intros H. apply (f_equal (@length A)) in H.
  rewrite length_app in H. simpl in H. lia.
Qed.

(** One step of the monitor, on any trade, seen from the peak record of
    [tid]: the record stays or grows, or it is deleted by a close of that
    very trade. *)
Lemma monitor_trade_peak_step
    (cfg : Config) (t : Trade) (e : StepEnv) (s : State) (tid : string) (old : Q) :
  peaks s !! tid = Some old ->
  (exists new, peaks (final (monitor_trade cfg (t, e) s)) !! tid = Some new /\
               (old <= new)%Q) \/
  (peaks (final (monitor_trade cfg (t, e) s)) !! tid = None /\
   t_id t = tid /\
   sent (final (monitor_trade cfg (t, e) s)) = (sent s ++ [TradeClose tid])%list).
Proof.
  intros Hold.
  assert (Hsame : forall r : res unit, final r = s ->
            exists new, peaks (final r) !! tid = Some new /\ (old <= new)%Q).
  { intros r ->. exists old. split; [exact Hold | apply Qle_refl]. }
  assert (Hclose : forall s1 new, peaks s1 !! tid = Some new -> (old <= new)%Q ->
            sent s1 = sent s ->
            let r := close_trade_by_id (t_id t) (t_instrument t) e s1 in
            (exists new', peaks (final r) !! tid = Some new' /\ (old <= new')%Q) \/
            (peaks (final r) !! tid = None /\ t_id t = tid /\
             sent (final r) = (sent s ++ [TradeClose tid])%list)).
  { intros s1 new H1 Hle Hsent r. subst r.
    destruct (decide (t_id t = tid)) as [Heq|Hne].
    - destruct (close_reply e) eqn:Hr.
      + right. rewrite close_trade_by_id_sent, close_trade_by_id_peaks, Hr, Hsent.
        rewrite Heq. split; [apply lookup_delete_eq | split; reflexivity].
      + left. exists new. rewrite close_trade_by_id_peaks, Hr. split; assumption.
    - left. exists new. rewrite close_trade_by_id_peaks.
      destruct (close_reply e); [rewrite lookup_delete_ne by exact Hne|];
        split; assumption. }
  destruct (in_cooldown cfg (t_instrument t) (clock_check e) s) eqn:Hc.
  { left. apply Hsame. rewrite monitor_trade_cooldown by exact Hc. reflexivity. }
  rewrite monitor_trade_active by exact Hc.
  pose proof (current_profit_final t e s) as Hf.
  destruct (current_profit t e s) as [[p|] s'|s']; simpl in Hf; subst s';
    try (left; apply Hsame; reflexivity).
  destruct (Qge_bool p (inject_Z (TAKE_PROFIT_PIPS cfg))) eqn:Htp.
  - apply Qge_bool_iff in Htp. rewrite evaluate_take_profit by exact Htp.
    apply (Hclose s old Hold (Qle_refl old) eq_refl).
  - apply Qge_bool_false in Htp. rewrite evaluate_below by exact Htp.
    set (new_peak := py_max (default p (peaks s !! t_id t)) p).
    set (s1 := set_peaks (<[t_id t := new_peak]> (peaks s)) s).
    assert (H1 : exists new, peaks s1 !! tid = Some new /\ (old <= new)%Q).
    { subst s1. simpl. destruct (decide (t_id t = tid)) as [Heq|Hne].
      - exists new_peak. rewrite Heq, lookup_insert_eq. split; [reflexivity|].
        subst new_peak. rewrite Heq, Hold. simpl. apply py_max_l.
      - exists old. rewrite lookup_insert_ne by exact Hne.
        split; [exact Hold | apply Qle_refl]. }
    destruct H1 as (new & H1 & Hle).
    destruct (_ && _)%bool.
    + apply (Hclose s1 new H1 Hle eq_refl).
    + left. exists new. split; assumption.
Qed.

(** C3: over any run of the monitor on one trade that starts without a peak
    record and in which every look reaches the peak update (profit below the
    take-profit level, no cooldown) and issues no close, the stored peak
    after the last look is the maximum of the profits seen so far.  From
    there on no step of the monitor, on any trade, lowers the record: it
    stays or grows, or it is deleted by a step that requests the close of
    this very trade. *)
Theorem peak_is_running_max
    (cfg : Config) (t : Trade) (s0 s : State) (ps : list Q) :
  observes cfg t s0 ps s ->
  peaks s0 !! t_id t = None ->
  ps <> [] ->
  peaks s !! t_id t = Some (running_max ps) /\
  In (running_max ps) ps /\
  Forall (fun p => (p <= running_max ps)%Q) ps /\
  (forall (t' : Trade) (e' : StepEnv) (s' : State),
     peaks s' !! t_id t = peaks s !! t_id t ->
     (exists new,
        peaks (final (monitor_trade cfg (t', e') s')) !! t_id t = Some new /\
        (running_max ps <= new)%Q) \/
     (peaks (final (monitor_trade cfg (t', e') s')) !! t_id t = None /\
      t_id t' = t_id t /\
      sent (final (monitor_trade cfg (t', e') s')) =
        (sent s' ++ [TradeClose (t_id t)])%list)).
Proof.
  intros Hrun Hnone Hne.
  assert (Hpeak : peaks s !! t_id t =
                  match ps with [] => None | _ => Some (running_max ps) end).
  { clear Hne. induction Hrun as [s|s0 s1 s1' s2 ps e p Hrun IH Hkeep Hc Hp Hlt Hstep Hsent].
    - exact Hnone.
    - specialize (IH Hnone).
      rewrite (monitor_trade_observed cfg t e s1' p Hc Hp) in Hstep.
      rewrite evaluate_below in Hstep by exact Hlt.
      destruct (_ && _)%bool.
      + exfalso. pose proof (close_trade_by_id_sent (t_id t) (t_instrument t) e
                   (set_peaks (<[t_id t := py_max (default p (peaks s1' !! t_id t)) p]>
                                 (peaks s1')) s1')) as Hs.
        rewrite Hstep in Hs. simpl in Hs. rewrite Hsent in Hs.
        symmetry in Hs. exact (snoc_neq _ _ Hs).
      + injection Hstep as <-. simpl. rewrite lookup_insert_eq, Hkeep, IH.
        destruct ps as [|q r].
        * simpl. rewrite py_max_same. reflexivity.
        * rewrite running_max_snoc by discriminate. simpl.
          destruct (r ++ [p])%list eqn:E; [destruct r; discriminate | reflexivity]. }
  assert (Hsome : peaks s !! t_id t = Some (running_max ps)).
  { rewrite Hpeak. destruct ps; [congruence | reflexivity]. }
  destruct (running_max_is_max ps Hne) as [Hin Hall].
  repeat split; try assumption.
  intros t' e' s' Hs'. rewrite Hsome in Hs'.
  apply (monitor_trade_peak_step cfg t' e' s' (t_id t) (running_max ps) Hs').
Qed.

Lemma peak_is_running_max_witness :
  let look p s :=
    final (monitor_trade default_config (eur_trade, step_at 100 0)
             (publish "EUR_USD" p "t" s)) in
  peaks (look 18%Q (look 25%Q (look 5%Q initial_state))) !! "1" =
    Some (running_max [5; 25; 18]%Q).
Proof.
  intros look.
  refine (proj1 (peak_is_running_max default_config eur_trade initial_state
                   (look 18%Q (look 25%Q (look 5%Q initial_state)))
                   [5; 25; 18]%Q _ _ _)).
  - change [5; 25; 18]%Q with ((([] ++ [5]) ++ [25]) ++ [18])%Q%list.
    eapply (observes_next default_config eur_trade initial_state
              (look 25%Q (look 5%Q initial_state))
              (publish "EUR_USD" 18 "t" (look 25%Q (look 5%Q initial_state)))
              _ _ (step_at 100 0));
      try reflexivity.
    eapply (observes_next default_config eur_trade initial_state
              (look 5%Q initial_state)
              (publish "EUR_USD" 25 "t" (look 5%Q initial_state))
              _ _ (step_at 100 0));
      try reflexivity.
    eapply (observes_next default_config eur_trade initial_state
              initial_state (publish "EUR_USD" 5 "t" initial_state)
              _ _ (step_at 100 0));
      try reflexivity.
    apply observes_none.
  - reflexivity.
  - discriminate.
Defined.

(** ** The trailing example *)

Lemma update_predicted_profit_publish (inst : string) (p : Q) (k : string) (s : State) :
  update_predicted_profit inst p k s = Ok tt (publish inst p k s).
Proof. reflexivity. Qed.

Lemma unit_res_eta (r : res unit) :
  match r with Ok _ s' => Ok tt s' | Exn s' => Exn s' end = r.
Proof. destruct r as [[] s'|s']; reflexivity. Qed.

(** A round that reports one trade is one step on that trade, taken after
    the publication of its profit. *)
Lemma reported_round (cfg : Config) (t : Trade) (p : Q) (k : string)
    (e : StepEnv) (s : State) :
  monitor_cycle cfg (reported t p k e) s =
    monitor_trade cfg (t, e) (publish (t_instrument t) p k s).
Proof.
  unfold monitor_cycle, reported, bind. simpl profit_updates.
  simpl open_trades. simpl replies.
  rewrite for_each_cons, update_predicted_profit_publish. simpl for_each at 1.
  unfold ret at 1. unfold fetch_open_trades, ret at 1. simpl pair_replies.
  rewrite for_each_cons. simpl for_each. unfold ret. apply unit_res_eta.
Qed.

Lemma current_profit_published (t : Trade) (p : Q) (k : string)
    (e : StepEnv) (s : State) :
  current_profit t e (publish (t_instrument t) p k s) =
    Ok (Some p) (publish (t_instrument t) p k s).
Proof.
  unfold current_profit, bind, get_predicted_profit, gets. simpl.
  rewrite lookup_insert_eq. reflexivity.
Qed.

Lemma reported_round_below (cfg : Config) (t : Trade) (p : Q) (k : string)
    (e : StepEnv) (s : State) :
  recently_closed s !! t_instrument t = None ->
  (p < inject_Z (TAKE_PROFIT_PIPS cfg))%Q ->
  let new_peak := py_max (default p (peaks s !! t_id t)) p in
  let s1 := set_peaks (<[t_id t := new_peak]> (peaks s))
              (publish (t_instrument t) p k s) in
  monitor_cycle cfg (reported t p k e) s =
    if (Qge_bool new_peak (inject_Z (ACTIVATION_THRESHOLD cfg))
        && Qge_bool (new_peak - p)%Q (inject_Z (TRAILING_GAP cfg)))%bool
    then close_trade_by_id (t_id t) (t_instrument t) e s1
    else Ok tt s1.
Proof.
  intros Hr Hlt. rewrite reported_round.
  rewrite (monitor_trade_observed cfg t e _ p).
  - rewrite evaluate_below by exact Hlt. reflexivity.
  - unfold in_cooldown. simpl. rewrite Hr. reflexivity.
  - apply current_profit_published.
Qed.

Lemma monitor_rounds_cons (cfg : Config) (c : CycleEnv) (rounds : list CycleEnv)
    (s : State) :
  live_trailing_stop_monitor cfg (c :: rounds) s =
    match monitor_cycle cfg c s with
    | Ok _ s' => live_trailing_stop_monitor cfg rounds s'
    | Exn s' => Exn s'
    end.
Proof. reflexivity. Qed.

Lemma monitor_rounds_nil (cfg : Config) (s : State) :
  live_trailing_stop_monitor cfg [] s = Ok tt s.
Proof. reflexivity. Qed.

(** C5 (as the code has it): for any open trade without peak record and
    outside any cooldown, four rounds of the monitor that observe the profits
    5, 25, 30 and 18 under the default thresholds (activation 20, gap 10,
    take-profit 70) store the peaks 5, 25 and 30 in the first three rounds
    and issue no request; the fourth round finds the peak 30 in force, sees
    the retracement 12 and is exactly one close of the trade, although the
    profit 18 is below the activation threshold.  A successful close deletes
    the peak record; a refused one leaves the peak 30 behind. *)
Theorem trailing_example
    (t : Trade) (s0 : State) (e1 e2 e3 e4 : StepEnv) (k1 k2 k3 k4 : string) :
  peaks s0 !! t_id t = None ->
  recently_closed s0 !! t_instrument t = None ->
  let r1 := reported t 5 k1 e1 in
  let r2 := reported t 25 k2 e2 in
  let r3 := reported t 30 k3 e3 in
  let r4 := reported t 18 k4 e4 in
  let after rounds := final (live_trailing_stop_monitor default_config rounds s0) in
  (peaks (after [r1]) !! t_id t = Some 5%Q /\
   peaks (after [r1; r2]) !! t_id t = Some 25%Q /\
   peaks (after [r1; r2; r3]) !! t_id t = Some 30%Q) /\
  (sent (after [r1]) = sent s0 /\
   sent (after [r1; r2]) = sent s0 /\
   sent (after [r1; r2; r3]) = sent s0) /\
  (exists s3 : State,
     peaks s3 !! t_id t = Some 30%Q /\
     live_trailing_stop_monitor default_config [r1; r2; r3; r4] s0 =
       close_trade_by_id (t_id t) (t_instrument t) e4 s3) /\
  sent (after [r1; r2; r3; r4]) = (sent s0 ++ [TradeClose (t_id t)])%list /\
  peaks (after [r1; r2; r3; r4]) !! t_id t =
    match close_reply e4 with
    | CloseOk => None
    | CloseError => Some 30%Q
    end.
Proof.
  intros Hp Hr r1 r2 r3 r4 after.
  set (tid := t_id t) in *. set (inst := t_instrument t) in *.
  pose (s1 := set_peaks (<[tid := 5%Q]> (peaks s0)) (publish inst 5 k1 s0)).
  pose (s2 := set_peaks (<[tid := 25%Q]> (peaks s1)) (publish inst 25 k2 s1)).
  pose (s3 := set_peaks (<[tid := 30%Q]> (peaks s2)) (publish inst 30 k3 s2)).
  pose (s4 := set_peaks (<[tid := 30%Q]> (peaks s3)) (publish inst 18 k4 s3)).
  assert (H1 : monitor_cycle default_config r1 s0 = Ok tt s1).
  { subst r1. rewrite reported_round_below by (exact Hr || reflexivity).
    fold tid. rewrite Hp. reflexivity. }
  assert (H2 : monitor_cycle default_config r2 s1 = Ok tt s2).
  { subst r2. rewrite reported_round_below by (exact Hr || reflexivity).
    fold tid. replace (peaks s1 !! tid) with (Some 5%Q)
      by (symmetry; apply lookup_insert_eq). reflexivity. }
  assert (H3 : monitor_cycle default_config r3 s2 = Ok tt s3).
  { subst r3. rewrite reported_round_below by (exact Hr || reflexivity).
    fold tid. replace (peaks s2 !! tid) with (Some 25%Q)
      by (symmetry; apply lookup_insert_eq). reflexivity. }
  assert (H4 : monitor_cycle default_config r4 s3 =
               close_trade_by_id tid inst e4 s4).
  { subst r4. rewrite reported_round_below by (exact Hr || reflexivity).
    fold tid. replace (peaks s3 !! tid) with (Some 30%Q)
      by (symmetry; apply lookup_insert_eq). reflexivity. }
  assert (R1 : after [r1] = s1).
  { unfold after. rewrite monitor_rounds_cons, H1. reflexivity. }
  assert (R2 : after [r1; r2] = s2).
  { unfold after. rewrite monitor_rounds_cons, H1. cbv iota beta.
    rewrite monitor_rounds_cons, H2. reflexivity. }
  assert (R3 : after [r1; r2; r3] = s3).
  { unfold after. rewrite monitor_rounds_cons, H1. cbv iota beta.
    rewrite monitor_rounds_cons, H2. cbv iota beta.
    rewrite monitor_rounds_cons, H3. reflexivity. }
  assert (R4 : live_trailing_stop_monitor default_config [r1; r2; r3; r4] s0 =
               close_trade_by_id tid inst e4 s4).
  { rewrite monitor_rounds_cons, H1. cbv iota beta.
    rewrite monitor_rounds_cons, H2. cbv iota beta.
    rewrite monitor_rounds_cons, H3. cbv iota beta.
    rewrite monitor_rounds_cons, H4.
    destruct (close_trade_by_id tid inst e4 s4) as [[] s'|s']; reflexivity. }
  split; [|split; [|split; [|split]]].
  - rewrite R1, R2, R3. repeat split; apply lookup_insert_eq.
  - rewrite R1, R2, R3. repeat split; reflexivity.
  - exists s4. split; [apply lookup_insert_eq | exact R4].
  - unfold after. rewrite R4, close_trade_by_id_sent. reflexivity.
  - unfold after. rewrite R4, close_trade_by_id_peaks.
    destruct (close_reply e4); [apply lookup_delete_eq | apply lookup_insert_eq].
Qed.

Lemma trailing_example_witness :
  let e := step_at 100 (11000 # 10000) in
  let r1 := reported eur_trade 5 "t1" e in
  let r2 := reported eur_trade 25 "t2" e in
  let r3 := reported eur_trade 30 "t3" e in
  let r4 := reported eur_trade 18 "t4" e in
  let after rounds :=
    final (live_trailing_stop_monitor default_config rounds initial_state) in
  sent (after [r1; r2; r3]) = [] /\
  sent (after [r1; r2; r3; r4]) = [TradeClose "1"].
Proof.
  intros e r1 r2 r3 r4 after.
  pose proof (trailing_example eur_trade initial_state e e e e
                "t1" "t2" "t3" "t4" eq_refl eq_refl) as H.
  split.
  - exact (proj2 (proj2 (proj1 (proj2 H)))).
  - exact (proj1 (proj2 (proj2 (proj2 H)))).
Defined.

(** Counterexample to C5 as stated: with a broker that accepts the close,
    no peak is stored once the fourth step is over, so the stored peaks
    after the four steps are 5, 25, 30 and none, not 5, 25, 30, 30. *)
Lemma trailing_example_peak_gone_after_close :
  let e := step_at 100 (11000 # 10000) in
  let rounds := [reported eur_trade 5 "t1" e; reported eur_trade 25 "t2" e;
                 reported eur_trade 30 "t3" e; reported eur_trade 18 "t4" e] in
  let s4 := final (live_trailing_stop_monitor default_config rounds initial_state) in
  sent s4 = [TradeClose "1"] /\
  peaks s4 !! "1" = None /\
  peaks s4 !! "1" <> Some 30%Q.
Proof.
  vm_compute. repeat split; discriminate.
Qed.

(** ** The entry aggregator *)

Lemma dict_set_nonempty (k : string) (v : Position) (d : list (string * Position)) :
  dict_set k v d <> [].
Proof.
  destruct d as [|[k' v'] d]; simpl; [discriminate|].
  destruct (String.eqb k' k); discriminate.
Qed.

Lemma positions_of_nonempty (trades : list Trade) :
  trades <> [] -> positions_of trades <> [].
Proof.
  unfold positions_of.
  assert (H : forall l d, d <> [] ->
            fold_left (fun d t => dict_set (t_instrument t) (position_of t) d) l d
            <> []).
  { induction l as [|t l IH]; intros d Hd; simpl; [exact Hd|].
    apply IH, dict_set_nonempty. }
  destruct trades as [|t l]; [congruence|]. intros _. simpl.
  apply H. discriminate.
Qed.

Lemma get_live_positions_eq (reply : FetchReply) (s : State) :
  get_live_positions reply s =
    Ok (positions_of match reply with
                     | FetchOk trades => trades
                     | FetchError => []
                     end)
       (set_active_trade (refreshed reply) s).
Proof. destruct reply; reflexivity. Qed.

(** Collecting signals reads the predictor only: it ends, normally or not,
    in the state it started in. *)
Lemma generate_multiframe_signal_pure (e : EntryEnv) (inst : string)
    (timeframes : list string) :
  exists r : option (list Signal), forall s,
    generate_multiframe_signal e inst timeframes s =
      match r with Some l => Ok l s | None => Exn s end.
Proof.
  induction timeframes as [|gran rest [r IH]].
  - exists (Some []). reflexivity.
  - cbn [generate_multiframe_signal]. unfold bind, call_generate_signal.
    destruct (signal_error e inst gran).
    + exists None. reflexivity.
    + destruct r as [l|].
      * exists (Some match kept (generate_signal e inst gran) with
                     | Some x => x :: l
                     | None => l
                     end).
        intros s. unfold ret at 1. rewrite IH. reflexivity.
      * exists None. intros s. unfold ret at 1. rewrite IH. reflexivity.
Qed.

Lemma collect_signals_pure (e : EntryEnv) (insts : list string) :
  exists r : option (list Signal), forall s,
    collect_signals e insts s =
      match r with Some l => Ok l s | None => Exn s end.
Proof.
  induction insts as [|inst rest [r IH]].
  - exists (Some []). reflexivity.
  - cbn [collect_signals]. unfold bind.
    destruct (generate_multiframe_signal_pure e inst ["M5"; "M15"; "H1"])
      as [[l|] Hl].
    + destruct r as [ls|].
      * exists (Some (l ++ ls)%list). intros s. rewrite Hl, IH. reflexivity.
      * exists None. intros s. rewrite Hl, IH. reflexivity.
    + exists None. intros s. rewrite Hl. reflexivity.
Qed.

(** When no call of the predictor raises, the loops return the signals the
    calls returned. *)
Lemma generate_multiframe_signal_returns (e : EntryEnv) (inst : string)
    (timeframes : list string) (s : State) :
  (forall gran, In gran timeframes -> signal_error e inst gran = false) ->
  generate_multiframe_signal e inst timeframes s =
    Ok (returned_signals (generate_signal e) inst timeframes) s.
Proof.
  induction timeframes as [|gran rest IH]; intros H; [reflexivity|].
  cbn [generate_multiframe_signal]. unfold bind, call_generate_signal.
  rewrite (H gran) by (left; reflexivity). unfold ret at 1.
  rewrite IH by (intros g Hg; apply H; right; exact Hg).
  unfold returned_signals. cbn [omap list_omap].
  destruct (kept (generate_signal e inst gran)); reflexivity.
Qed.

Lemma collect_signals_returns (e : EntryEnv) (insts : list string) (s : State) :
  (forall inst gran, In inst insts -> In gran ["M5"; "M15"; "H1"] ->
                     signal_error e inst gran = false) ->
  collect_signals e insts s =
    Ok (flat_map (fun inst =>
                    returned_signals (generate_signal e) inst ["M5"; "M15"; "H1"])
          insts) s.
Proof.
  induction insts as [|inst rest IH]; intros H; [reflexivity|].
  cbn [collect_signals]. unfold bind.
  rewrite generate_multiframe_signal_returns
    by (intros g Hg; apply H; [left; reflexivity | exact Hg]).
  rewrite IH by (intros i g Hi Hg; apply H; [right; exact Hi | exact Hg]).
  reflexivity.
Qed.

(** The loops raise only when a call of the predictor does. *)
Lemma generate_multiframe_signal_raised (e : EntryEnv) (inst : string)
    (timeframes : list string) (s s' : State) :
  generate_multiframe_signal e inst timeframes s = Exn s' ->
  exists gran, In gran timeframes /\ signal_error e inst gran = true.
Proof.
  revert s'. induction timeframes as [|gran rest IH]; intros s' H;
    [discriminate|].
  cbn [generate_multiframe_signal] in H. unfold bind, call_generate_signal in H.
  destruct (signal_error e inst gran) eqn:Hg.
  - exists gran. split; [left; reflexivity | exact Hg].
  - unfold ret at 1 in H.
    destruct (generate_multiframe_signal e inst rest s) as [l s1|s1] eqn:Hr;
      [discriminate|].
    destruct (IH s1 eq_refl) as (g & Hin & Hg').
    exists g. split; [right; exact Hin | exact Hg'].
Qed.

Lemma collect_signals_raised (e : EntryEnv) (insts : list string) (s s' : State) :
  collect_signals e insts s = Exn s' ->
  exists inst gran, In inst insts /\ In gran ["M5"; "M15"; "H1"] /\
                    signal_error e inst gran = true.
Proof.
  revert s s'. induction insts as [|inst rest IH]; intros s s' H;
    [discriminate|].
  cbn [collect_signals] in H. unfold bind in H.
  destruct (generate_multiframe_signal e inst ["M5"; "M15"; "H1"] s)
    as [l s1|s1] eqn:Hm.
  - destruct (collect_signals e rest s1) as [ls s2|s2] eqn:Hr; [discriminate|].
    destruct (IH _ _ Hr) as (i & g & Hi & Hg & He).
    exists i, g. split; [right; exact Hi | split; assumption].
  - destruct (generate_multiframe_signal_raised _ _ _ _ _ Hm) as (g & Hg & He).
    exists inst, g. split; [left; reflexivity | split; assumption].
Qed.

(** With nothing open at the broker and every call of the predictor
    returning, both entry functions act on [best_signal]. *)
Lemma entry_flat (cfg : Config) (e : EntryEnv) (s : State) :
  positions_reply e = FetchOk [] \/ positions_reply e = FetchError ->
  (forall inst gran, In inst INSTRUMENTS -> In gran ["M5"; "M15"; "H1"] ->
                     signal_error e inst gran = false) ->
  let act := match best_signal e with
             | Some best =>
                 (confirm_trade cfg (sig_instrument best) (side_of best)
                    (entry_price_reply e) (order_reply e) ;;;
                  ret tt)%prog
             | None => ret tt
             end in
  (enabled s = true ->
   job_multiframe cfg e s = act (set_active_trade None s)) /\
  conditional_entry cfg e s = act (set_active_trade None s).
Proof.
  intros Hflat Hret act. subst act.
  unfold job_multiframe, conditional_entry, bind, gets, best_signal.
  rewrite !get_live_positions_eq.
  split; [intros ->; change (negb true) with false; cbv beta iota;
          rewrite !get_live_positions_eq|];
    destruct Hflat as [-> | ->]; cbn [positions_of fold_left];
    rewrite (collect_signals_returns e INSTRUMENTS _ Hret);
    destruct (select_best _); reflexivity.
Qed.

(** With a position open at the broker, one entry evaluation only refreshes
    [active_trade]. *)
Lemma job_multiframe_busy (cfg : Config) (e : EntryEnv) (s : State)
    (trades : list Trade) :
  enabled s = true ->
  positions_reply e = FetchOk trades ->
  trades <> [] ->
  job_multiframe cfg e s =
    Ok tt (set_active_trade (refreshed (positions_reply_log e)) s).
Proof.
  intros Hon Hreply Hne.
  unfold job_multiframe, bind, gets. rewrite Hon.
  change (negb true) with false. cbv beta iota.
  rewrite get_live_positions_eq, Hreply.
  pose proof (positions_of_nonempty trades Hne) as Hpos.
  destruct (positions_of trades) as [|x l]; [congruence|].
  rewrite get_live_positions_eq. reflexivity.
Qed.

Lemma conditional_entry_busy (cfg : Config) (e : EntryEnv) (s : State)
    (trades : list Trade) :
  positions_reply e = FetchOk trades ->
  trades <> [] ->
  conditional_entry cfg e s =
    Ok tt (set_active_trade (refreshed (positions_reply e)) s).
Proof.
  intros Hreply Hne.
  unfold conditional_entry, bind.
  rewrite get_live_positions_eq, Hreply.
  pose proof (positions_of_nonempty trades Hne) as Hpos.
  destruct (positions_of trades) as [|x l]; [congruence|].
  reflexivity.
Qed.

(** C1 (as the code has it): however often the entry aggregator is run while
    every deciding fetch of ground truth reports at least one open trade,
    it ends normally and the state it leaves differs from the one it
    started in by the [active_trade] record of [RiskManager] at most: no
    order and no other request is issued, and the peak, cooldown and
    shared-profit tables, the connection flag and the time of the last entry
    are untouched.  The test is made on the fetched list; [active_trade] is
    never read.  This holds for [job_multiframe] and for
    [conditional_entry]. *)
Theorem open_position_blocks_entry
    (cfg : Config) (es : list EntryEnv) (s : State) :
  enabled s = true ->
  Forall (fun e => exists trades,
            positions_reply e = FetchOk trades /\ trades <> []) es ->
  (exists a, for_each (job_multiframe cfg) es s = Ok tt (set_active_trade a s)) /\
  (exists a, for_each (conditional_entry cfg) es s = Ok tt (set_active_trade a s)) /\
  sent (final (for_each (job_multiframe cfg) es s)) = sent s /\
  sent (final (for_each (conditional_entry cfg) es s)) = sent s.
Proof.
  intros Hon Hall.
  assert (Hj : forall a, exists a',
            for_each (job_multiframe cfg) es (set_active_trade a s) =
            Ok tt (set_active_trade a' s)).
  { induction Hall as [|e es (trades & Hr & Hne) _ IH]; intros a.
    - exists a. reflexivity.
    - rewrite for_each_cons.
      rewrite (job_multiframe_busy cfg e _ trades) by (exact Hon || assumption).
      cbv beta iota. rewrite set_active_trade_twice. apply IH. }
  assert (Hc : forall a, exists a',
            for_each (conditional_entry cfg) es (set_active_trade a s) =
            Ok tt (set_active_trade a' s)).
  { clear Hj. induction Hall as [|e es (trades & Hr & Hne) _ IH]; intros a.
    - exists a. reflexivity.
    - rewrite for_each_cons.
      rewrite (conditional_entry_busy cfg e _ trades) by assumption.
      cbv beta iota. rewrite set_active_trade_twice. apply IH. }
  destruct (Hj (active_trade s)) as [a Ha].
  destruct (Hc (active_trade s)) as [b Hb].
  rewrite set_active_trade_id in Ha, Hb.
  rewrite Ha, Hb. repeat split; eauto.
Qed.

Lemma open_position_blocks_entry_witness :
  (exists a, for_each (job_multiframe default_config)
               [busy_entry; busy_entry; busy_entry] initial_state =
             Ok tt (set_active_trade a initial_state)) /\
  sent (final (for_each (job_multiframe default_config)
                 [busy_entry; busy_entry; busy_entry] initial_state)) = [].
Proof.
  pose proof (open_position_blocks_entry default_config
                [busy_entry; busy_entry; busy_entry] initial_state) as H.
  assert (Hall : Forall (fun e => exists trades,
                   positions_reply e = FetchOk trades /\ trades <> [])
                   [busy_entry; busy_entry; busy_entry]).
  { repeat constructor; exists [eur_trade]; split;
      (reflexivity || discriminate). }
  destruct (H eq_refl Hall) as (Hj & _ & Hs & _).
  split; [exact Hj | exact Hs].
Defined.

(** Counterexample to C1 as stated: a process that starts while the broker
    already reports [eur_trade] open runs the entry job; no order goes out,
    but the job is not free of side effects: it replaces the empty
    [active_trade] of [RiskManager] by the reported position. *)
Lemma entry_job_refreshes_active_trade :
  enabled initial_state = true /\
  positions_reply busy_entry = FetchOk [eur_trade] /\
  active_trade initial_state = None /\
  active_trade (final (job_multiframe default_config busy_entry initial_state)) =
    Some eur_position /\
  job_multiframe default_config busy_entry initial_state <> Ok tt initial_state.
Proof.
  repeat split. vm_compute. discriminate.
Qed.

(** The entry functions never look at the cooldown table. *)
Lemma confirm_trade_blind_to_cooldown (cfg : Config) (inst : string) (sd : Side)
    (price : PriceReply) (order : OrderReply) (rc : gmap string Q) :
  blind_to (set_recently_closed rc) (confirm_trade cfg inst sd price order).
Proof.
  intros s. unfold confirm_trade, bind, fetch_current_price, modify, ret, raise.
  destruct price; try reflexivity. destruct order; reflexivity.
Qed.

Lemma entry_blind_to_cooldown (cfg : Config) (e : EntryEnv)
    (rc : gmap string Q) :
  blind_to (set_recently_closed rc) (job_multiframe cfg e) /\
  blind_to (set_recently_closed rc) (conditional_entry cfg e).
Proof.
  destruct (collect_signals_pure e INSTRUMENTS) as [r Hr].
  split; intros s; unfold job_multiframe, conditional_entry, bind, gets;
    rewrite ?get_live_positions_eq.
  - change (enabled (set_recently_closed rc s)) with (enabled s).
    destruct (enabled s); [|reflexivity].
    change (negb true) with false. cbv beta iota.
    rewrite !get_live_positions_eq.
    destruct (positions_of _) as [|x l].
    + rewrite !Hr. destruct r as [sigs|]; [|reflexivity].
      destruct (select_best sigs) as [best|]; [|reflexivity].
      change (set_active_trade ?a (set_recently_closed rc s))
        with (set_recently_closed rc (set_active_trade a s)).
      rewrite confirm_trade_blind_to_cooldown.
      destruct (confirm_trade _ _ _ _ _ _); reflexivity.
    + rewrite !get_live_positions_eq. reflexivity.
  - destruct (positions_of _) as [|x l]; [|reflexivity].
    rewrite !Hr. destruct r as [sigs|]; [|reflexivity].
    destruct (select_best sigs) as [best|]; [|reflexivity].
    change (set_active_trade ?a (set_recently_closed rc s))
      with (set_recently_closed rc (set_active_trade a s)).
    rewrite confirm_trade_blind_to_cooldown.
    destruct (confirm_trade _ _ _ _ _ _); reflexivity.
Qed.

(** C2 (the code at the failing input): EUR_USD was closed at time 1000 and
    its cooldown of 300 seconds runs until 1300.  The risk job of time 1060
    finds no open position, triggers the entry job, and the qualifying BUY
    signal for EUR_USD is acted on: a market order for EUR_USD is sent. *)
Theorem entry_during_cooldown :
  recently_closed after_close !! "EUR_USD" = Some 1000%Q /\
  (now risk_job_at_1060 < 1000 + inject_Z (COOLDOWN_PERIOD default_config))%Q /\
  in_cooldown default_config "EUR_USD" (now risk_job_at_1060) after_close = true /\
  exists sl tp,
    sent (final (job_risk_management default_config risk_job_at_1060 after_close))
    = [MarketOrder "EUR_USD" 1000 sl tp].
Proof.
  repeat split. vm_compute. eauto.
Qed.

(** ** Closes and the shared stores *)

(** A successful close by the trailing-stop module clears all three
    records. *)
Lemma trailing_close_clears (cfg : Config) (tid inst : string) (e : StepEnv)
    (s : State) :
  close_reply e = CloseOk ->
  let s' := final (close_trade_by_id tid inst e s) in
  shared_risk_data s' !! inst = None /\
  recently_closed s' !! inst = Some (clock_close e) /\
  peaks s' !! tid = None.
Proof.
  intros H. rewrite close_trade_by_id_ok by exact H. simpl.
  rewrite !lookup_delete_eq, lookup_insert_eq. auto.
Qed.

(** C6 (the code at the failing input): [RiskManager] tracks the long
    EUR_USD trade 1 while the shared cache and the peak table hold its last
    profit.  At 80 pips of profit [update_all_positions] closes the trade,
    and the broker accepts; the cache entry of EUR_USD and the peak record of
    the trade are still there afterwards, and no cooldown is registered. *)
Theorem risk_manager_close_keeps_stores :
  let s' := final (update_all_positions prices_at_80 Put200 tracking) in
  sent s' = [PutClose "1"] /\
  active_trade s' = None /\
  shared_risk_data s' !! "EUR_USD" =
    Some {| predicted_profit_pips := 60; last_update := "t" |} /\
  peaks s' !! "1" = Some 60%Q /\
  recently_closed s' !! "EUR_USD" = None.
Proof.
  vm_compute. repeat split.
Qed.

(** ** Failures of external calls *)

(** C8 (the code at failing inputs): an HTTP error of the pricing request,
    or a close request the broker refuses, ends the trailing-stop monitor
    loop with an exception: none of the later rounds runs.  An order request
    the broker refuses leaves the entry job as an exception and ends [main],
    whatever was scheduled after it. *)
Theorem uncaught_failures_end_loops :
  (forall later,
     live_trailing_stop_monitor default_config (price_error_round :: later)
       initial_state = Exn initial_state) /\
  (forall later,
     raised (live_trailing_stop_monitor default_config
               (close_error_round :: later) initial_state) = true) /\
  raised (job_multiframe default_config refused_entry initial_state) = true /\
  (forall first_risk pending,
     raised (main default_config refused_entry first_risk pending initial_state)
     = true).
Proof.
  split; [|split; [|split]].
  - intros later. apply for_each_raised. reflexivity.
  - intros later. unfold live_trailing_stop_monitor.
    erewrite for_each_raised; [reflexivity|]. vm_compute. reflexivity.
  - vm_compute. reflexivity.
  - intros first_risk pending. unfold main, bind.
    assert (H : raised (job_multiframe default_config refused_entry initial_state)
                = true) by (vm_compute; reflexivity).
    destruct (job_multiframe default_config refused_entry initial_state);
      [discriminate | reflexivity].
Qed.

(** ** The connection supervisor *)

Lemma blind_for_each {A} (f : State -> State) (body : A -> M unit) (l : list A) :
  (forall x, blind_to f (body x)) -> blind_to f (for_each body l).
Proof.
  intros Hb. induction l as [|x l IH]; intros s; [reflexivity|].
  rewrite !for_each_cons, Hb.
  destruct (body x s) as [[] s'|s']; simpl; [apply IH | reflexivity].
Qed.

Lemma close_blind_to_enabled (tid inst : string) (e : StepEnv) (b : bool) :
  blind_to (set_enabled b) (close_trade_by_id tid inst e).
Proof.
  intros s. unfold close_trade_by_id, bind, modify, clear_predicted_profit, raise.
  destruct (close_reply e); reflexivity.
Qed.

Lemma monitor_trade_blind_to_enabled (cfg : Config) (te : Trade * StepEnv) (b : bool) :
  blind_to (set_enabled b) (monitor_trade cfg te).
Proof.
  destruct te as [t e]. intros s.
  unfold monitor_trade, bind, gets.
  change (in_cooldown cfg (t_instrument t) (clock_check e) (set_enabled b s))
    with (in_cooldown cfg (t_instrument t) (clock_check e) s).
  destruct (in_cooldown cfg (t_instrument t) (clock_check e) s); [reflexivity|].
  unfold current_profit, bind, get_predicted_profit, gets, fetch_current_price,
    ret, raise.
  change (shared_risk_data (set_enabled b s)) with (shared_risk_data s).
  assert (He : forall p, evaluate cfg t e p (set_enabled b s) =
                         res_map (set_enabled b) (evaluate cfg t e p s)).
  { intros p. unfold evaluate.
    destruct (Qge_bool p _); [apply close_blind_to_enabled|].
    unfold bind, gets, modify, ret.
    change (peaks (set_enabled b s)) with (peaks s).
    destruct (Qge_bool _ (inject_Z (ACTIVATION_THRESHOLD cfg))); [|reflexivity].
    destruct (Qge_bool _ (inject_Z (TRAILING_GAP cfg))); [|reflexivity].
    apply (close_blind_to_enabled _ _ _ b
             (set_peaks (<[t_id t := _]> (peaks s)) s)). }
  destruct (predicted_profit_pips <$> shared_risk_data s !! t_instrument t);
    [apply He|].
  destruct (price_reply e); [apply He | reflexivity | reflexivity].
Qed.

(** The trailing-stop monitor never looks at the connection flag. *)
Lemma monitor_blind_to_enabled (cfg : Config) (rounds : list CycleEnv) (b : bool) :
  blind_to (set_enabled b) (live_trailing_stop_monitor cfg rounds).
Proof.
  apply blind_for_each. intros c s. unfold monitor_cycle, bind.
  rewrite (blind_for_each (set_enabled b)
             (fun w => let '(inst, p, stamp) := w in
                       update_predicted_profit inst p stamp)).
  - destruct (for_each _ (profit_updates c) s) as [[] s1|s1]; [|reflexivity].
    simpl res_map. cbv beta iota.
    destruct (open_trades c); unfold fetch_open_trades, ret;
      apply blind_for_each; intros te; apply monitor_trade_blind_to_enabled.
  - intros [[inst p] stamp] s'. reflexivity.
Qed.

(** C9: a failed heartbeat in state CONNECTED changes the connection flag
    and nothing else.  While the flag is down every new invocation of the
    entry job and of the risk-management job returns at once in the state
    it found, and a further failed heartbeat keeps the flag down.  The one
    invocation of the trailing-stop monitor, started with the process and
    running since, is not cancelled: its rounds run as they would with the
    flag up. *)
Theorem disconnected_pauses_scheduled_jobs (cfg : Config) (s : State) :
  enabled s = true ->
  let s' := final (check_connection false s) in
  s' = set_enabled false s /\
  enabled s' = false /\
  (forall e, job_multiframe cfg e s' = Ok tt s') /\
  (forall e, job_risk_management cfg e s' = Ok tt s') /\
  check_connection false s' = Exn s' /\
  (forall rounds,
     live_trailing_stop_monitor cfg rounds s' =
     res_map (set_enabled false) (live_trailing_stop_monitor cfg rounds s)).
Proof.
  intros Hon s'.
  assert (Hs : s' = set_enabled false s).
  { subst s'. unfold check_connection, bind, gets, modify, raise.
    rewrite Hon. reflexivity. }
  rewrite Hs. repeat split.
  - intros rounds. apply monitor_blind_to_enabled.
Qed.

Lemma disconnected_pauses_scheduled_jobs_witness :
  let s' := final (check_connection false initial_state) in
  s' = disconnected /\
  job_multiframe default_config flat_entry s' = Ok tt s' /\
  job_risk_management default_config risk_job_at_1060 s' = Ok tt s'.
Proof.
  pose proof (disconnected_pauses_scheduled_jobs default_config initial_state
                eq_refl) as H.
  split; [exact (proj1 H)|]. split.
  - exact (proj1 (proj2 (proj2 H)) flat_entry).
  - exact (proj1 (proj2 (proj2 (proj2 H))) risk_job_at_1060).
Defined.

(** The running trailing-stop monitor after a failed heartbeat: the process
    is DISCONNECTED, and the next round of the monitor, which sees 75 pips
    of profit on the open trade, requests its close and rewrites the
    cooldown table as it would while CONNECTED. *)
Lemma monitor_trades_while_disconnected :
  final (check_connection false initial_state) = disconnected /\
  enabled disconnected = false /\
  sent (final (live_trailing_stop_monitor default_config [take_profit_round]
                 disconnected)) = [TradeClose "1"] /\
  recently_closed (final (live_trailing_stop_monitor default_config
                            [take_profit_round] disconnected)) !! "EUR_USD"
    = Some 100%Q.
Proof.
  vm_compute. repeat split.
Qed.

(** * Further properties *)

(** ** The shared profit cache *)

Lemma String_eqb_decide (a b : string) :
  String.eqb a b = bool_decide (a = b).
Proof.
  destruct (String.eqb_spec a b) as [H|H].
  - symmetry. apply bool_decide_eq_true_2, H.
  - symmetry. apply bool_decide_eq_false_2, H.
Qed.

Lemma shared_cache_writes_never_raise
    (ws : list (string * Q * string)) (s : State) :
  raised (for_each (fun w : string * Q * string =>
                      let '(i, p, stamp) := w in update_predicted_profit i p stamp)
            ws s) = false.
Proof.
  revert s. induction ws as [|[[i p] k] ws IH]; intros s; [reflexivity|].
  rewrite for_each_cons, update_predicted_profit_publish. apply IH.
Qed.

Lemma last_write_lookup (ws : list (string * Q * string)) (inst : string) (s : State) :
  predicted_profit_pips <$>
    shared_risk_data
      (final (for_each (fun w : string * Q * string =>
                          let '(i, p, stamp) := w in
                          update_predicted_profit i p stamp) ws s)) !! inst =
  match last_write inst ws with
  | Some p => Some p
  | None => predicted_profit_pips <$> shared_risk_data s !! inst
  end.
Proof.
  revert s. induction ws as [|[[i p] k] ws IH]; intros s; [reflexivity|].
  rewrite for_each_cons, update_predicted_profit_publish, IH.
  simpl last_write.
  destruct (last_write inst ws) as [q|]; [reflexivity|].
  unfold publish; simpl. rewrite String_eqb_decide.
  destruct (decide (i = inst)) as [->|Hne].
  - rewrite bool_decide_eq_true_2 by reflexivity.
    rewrite lookup_insert_eq. reflexivity.
  - rewrite bool_decide_eq_false_2 by exact Hne.
    rewrite lookup_insert_ne by exact Hne. reflexivity.
Qed.

(** X1: the shared cache is a last-write-wins table.  After any series of
    [update_predicted_profit] calls, [get_predicted_profit] returns, for
    every instrument, the profit of the last call made for it, or what the
    cache held before when no call was made for it; the calls never raise
    and reading changes nothing. *)
Theorem shared_cache_last_write_wins
    (ws : list (string * Q * string)) (inst : string) (s : State) :
  let body := fun w : string * Q * string =>
                let '(i, p, stamp) := w in update_predicted_profit i p stamp in
  let s' := final (for_each body ws s) in
  raised (for_each body ws s) = false /\
  get_predicted_profit inst s' =
    Ok match last_write inst ws with
       | Some p => Some p
       | None => predicted_profit_pips <$> shared_risk_data s !! inst
       end s'.
Proof.
  cbv zeta. split; [apply shared_cache_writes_never_raise|].
  unfold get_predicted_profit, gets. rewrite last_write_lookup. reflexivity.
Qed.

(** X2: [clear_predicted_profit] removes the entry of its instrument and of
    no other, so that a profit written and then cleared leaves no trace; on
    an instrument without entry it leaves the state as it is (no
    [KeyError]), hence clearing twice is clearing once;
    [reset_shared_risk_data] removes every entry. *)
Theorem clearing_the_shared_cache
    (inst other : string) (p : Q) (k : string) (s : State) :
  let clear s := final (clear_predicted_profit inst s) in
  get_predicted_profit inst (clear s) = Ok None (clear s) /\
  (other <> inst ->
   shared_risk_data (clear s) !! other = shared_risk_data s !! other) /\
  clear (final (update_predicted_profit inst p k s)) = clear s /\
  (shared_risk_data s !! inst = None -> clear_predicted_profit inst s = Ok tt s) /\
  clear (clear s) = clear s /\
  get_predicted_profit other (final (reset_shared_risk_data s)) =
    Ok None (final (reset_shared_risk_data s)).
Proof.
  cbv zeta. unfold clear_predicted_profit, reset_shared_risk_data,
    update_predicted_profit, get_predicted_profit, modify, gets. simpl.
  rewrite lookup_delete_eq, lookup_empty.
  split; [reflexivity|]. split.
  { intros Hne. apply lookup_delete_ne. congruence. }
  split.
  { unfold set_shared_risk_data. simpl. rewrite delete_insert_eq. reflexivity. }
  split.
  { intros Hnone. rewrite delete_id by exact Hnone. destruct s; reflexivity. }
  split; [|reflexivity].
  unfold set_shared_risk_data. simpl. rewrite delete_delete_eq. reflexivity.
Qed.

(** ** Profit in pips *)

Lemma pip_size_pos (inst : string) : (0 < pip_size inst)%Q.
Proof. unfold pip_size. destruct (contains "JPY" (upper inst)); reflexivity. Qed.

Lemma Qdiv_pos_iff (a b : Q) : (0 < b)%Q -> ((0 < a / b)%Q <-> (0 < a)%Q).
Proof.
  intros Hb. assert (Hb' : ~ (b == 0)%Q).
  { intros E. rewrite E in Hb. discriminate. }
  split; intros H.
  - assert (H' : (0 < a / b * b)%Q) by (apply Qmult_lt_0_compat; assumption).
    rewrite Qmult_comm, Qmult_div_r in H' by exact Hb'. exact H'.
  - apply Qlt_shift_div_l; [exact Hb|]. rewrite Qmult_0_l. exact H.
Qed.

Lemma Qlt_bool_0_inject_Z (z : Z) : Qlt_bool 0 (inject_Z z) = (0 <? z)%Z.
Proof.
  unfold Qlt_bool, Qle_bool. simpl. rewrite Z.mul_1_r.
  symmetry. apply Z.ltb_antisym.
Qed.

Lemma Qdiv_neg_iff (a b : Q) : (0 < b)%Q -> ((a / b < 0)%Q <-> (a < 0)%Q).
Proof.
  intros Hb.
  assert (Hne : ~ (b == 0)%Q) by (intros E; rewrite E in Hb; discriminate).
  assert (E : ((- a) / b == - (a / b))%Q) by (field; exact Hne).
  pose proof (Qdiv_pos_iff (- a) b Hb) as H. rewrite E in H.
  split; intros H0.
  - assert (0 < - a)%Q by (apply H; lra). lra.
  - assert (0 < - (a / b))%Q by (apply H; lra). lra.
Qed.

(** X3: the sign of [calculate_profit] is the direction of the price move:
    the profit is positive exactly when the price moved in the trade's
    favour (above the entry for a long trade, below it for a short one) and
    negative exactly when it moved against it; a long and a short trade with
    the same entry have opposite profits. *)
Theorem calculate_profit_sign_is_direction (trade : Position) (price : Q) :
  let move := match side trade with
              | long => (price - entry_price trade)%Q
              | short => (entry_price trade - price)%Q
              end in
  let mirror := {| trade_id := trade_id trade;
                   pos_instrument := pos_instrument trade;
                   entry_price := entry_price trade;
                   side := match side trade with long => short | short => long end |} in
  ((0 < calculate_profit trade price)%Q <-> (0 < move)%Q) /\
  ((calculate_profit trade price < 0)%Q <-> (move < 0)%Q) /\
  (calculate_profit mirror price == - calculate_profit trade price)%Q.
Proof.
  cbv zeta. pose proof (pip_size_pos (pos_instrument trade)) as Hpip.
  assert (Hne : ~ (pip_size (pos_instrument trade) == 0)%Q).
  { intros E. rewrite E in Hpip. discriminate. }
  unfold calculate_profit. simpl. destruct (side trade); simpl.
  - split; [apply Qdiv_pos_iff, Hpip|].
    split; [apply Qdiv_neg_iff, Hpip|]. field. exact Hne.
  - split; [apply Qdiv_pos_iff, Hpip|].
    split; [apply Qdiv_neg_iff, Hpip|]. field. exact Hne.
Qed.

(** X4: the trailing-stop monitor and [RiskManager] compute the same profit
    for a trade of the broker at the same price, provided the trade's
    current units, if reported, have the sign of its initial units: the
    monitor takes the direction from [currentUnits], [get_live_positions]
    from [initialUnits]. *)
Theorem monitor_and_risk_manager_agree_on_profit (t : Trade) (current : Q) :
  match t_currentUnits t with
  | Some u => (0 < u)%Q <-> (0 < t_initialUnits t)%Z
  | None => True
  end ->
  computed_profit t current = calculate_profit (position_of t) current.
Proof.
  intros H. unfold computed_profit, calculate_profit, position_of, units_of.
  simpl.
  assert (E : Qlt_bool 0 match t_currentUnits t with
                         | Some u => u
                         | None => inject_Z (t_initialUnits t)
                         end = (0 <? t_initialUnits t)%Z).
  { destruct (t_currentUnits t) as [u|]; [|apply Qlt_bool_0_inject_Z].
    destruct (0 <? t_initialUnits t)%Z eqn:Ez.
    - apply Qlt_bool_iff, H, Z.ltb_lt, Ez.
    - apply Qlt_bool_false. apply Qnot_lt_le. intros Hu.
      apply H, Z.ltb_lt in Hu. congruence. }
  rewrite E. destruct (0 <? t_initialUnits t)%Z; reflexivity.
Qed.

Lemma monitor_and_risk_manager_agree_on_profit_witness :
  computed_profit eur_trade (11080 # 10000) =
  calculate_profit (position_of eur_trade) (11080 # 10000).
Proof.
  apply (monitor_and_risk_manager_agree_on_profit eur_trade (11080 # 10000)).
  simpl. split; intros _; reflexivity.
Defined.

(** Where the two differ: a trade opened long whose current units are
    reported negative. *)
Lemma profit_differs_when_units_change_sign :
  let t := {| t_id := "1"; t_instrument := "EUR_USD"; t_price := 11000 # 10000;
              t_initialUnits := 1000; t_currentUnits := Some (- (500 # 1))%Q |} in
  ~ (computed_profit t (11080 # 10000) ==
     calculate_profit (position_of t) (11080 # 10000))%Q.
Proof. vm_compute. discriminate. Qed.

(** X5: the profit monitor publishes the profit [RiskManager] computes:
    for a trade with non-zero initial units, the profit expression of
    [fetch_trade_data] equals [calculate_profit] on the position that
    [get_live_positions] builds from the trade.  (With zero units the
    profit monitor counts the trade as long, the risk manager as short.) *)
Theorem profit_monitor_and_risk_manager_agree (t : Trade) (current : Q) :
  t_initialUnits t <> 0%Z ->
  monitor_profit_pips t current = calculate_profit (position_of t) current.
Proof.
  intros Hnz. unfold monitor_profit_pips, calculate_profit, position_of. simpl.
  destruct (t_initialUnits t <? 0)%Z eqn:En.
  - apply Z.ltb_lt in En.
    replace (0 <? t_initialUnits t)%Z with false; [reflexivity|].
    symmetry. apply Z.ltb_ge. lia.
  - apply Z.ltb_ge in En.
    replace (0 <? t_initialUnits t)%Z with true; [reflexivity|].
    symmetry. apply Z.ltb_lt. lia.
Qed.

Lemma profit_monitor_and_risk_manager_agree_witness :
  monitor_profit_pips eur_trade (11080 # 10000) =
  calculate_profit (position_of eur_trade) (11080 # 10000).
Proof.
  apply (profit_monitor_and_risk_manager_agree eur_trade (11080 # 10000)).
  discriminate.
Defined.

(** ** Selection of the entry signal *)

Lemma max_by_first_maximum (key : Signal -> Q) (l : list Signal) :
  forall (pre mid : list Signal) (b : Signal),
    Forall (fun x => (key x < key b)%Q) pre ->
    Forall (fun x => (key x <= key b)%Q) mid ->
    exists l1 l2,
      (pre ++ b :: mid ++ l = l1 ++ max_by key b l :: l2)%list /\
      Forall (fun x => (key x < key (max_by key b l))%Q) l1 /\
      Forall (fun x => (key x <= key (max_by key b l))%Q) l2.
Proof.
  induction l as [|x l IH]; intros pre mid b Hpre Hmid; simpl.
  - exists pre, mid. rewrite app_nil_r. auto.
  - destruct (Qlt_bool (key b) (key x)) eqn:E.
    + apply Qlt_bool_iff in E.
      destruct (IH (pre ++ b :: mid)%list [] x) as (l1 & l2 & Heq & H1 & H2).
      * apply Forall_app. split; [|constructor; [exact E|]].
        -- eapply Forall_impl; [exact Hpre|]. intros y Hy. simpl in Hy.
           eapply Qlt_trans; eassumption.
        -- eapply Forall_impl; [exact Hmid|]. intros y Hy. simpl in Hy.
           eapply Qle_lt_trans; eassumption.
      * constructor.
      * exists l1, l2. split; [|auto].
        rewrite <- Heq. rewrite <- !app_assoc. reflexivity.
    + apply Qlt_bool_false in E.
      destruct (IH pre (mid ++ [x])%list b Hpre) as (l1 & l2 & Heq & H1 & H2).
      * apply Forall_app. split; [exact Hmid | constructor; [exact E | constructor]].
      * exists l1, l2. split; [|auto].
        rewrite <- Heq. rewrite <- !app_assoc. reflexivity.
Qed.

Lemma filter_split {A} (P : A -> bool) (l : list A) :
  forall (l1' l2' : list A) (b : A),
    List.filter P l = (l1' ++ b :: l2')%list ->
    exists l1 l2, l = (l1 ++ b :: l2)%list /\
                  List.filter P l1 = l1' /\ List.filter P l2 = l2'.
Proof.
  induction l as [|x l IH]; intros l1' l2' b H; simpl in H.
  - destruct l1'; discriminate.
  - destruct (P x) eqn:Px.
    + destruct l1' as [|y l1']; simpl in H.
      * injection H as -> Hl. exists [], l. auto.
      * injection H as -> Hl. destruct (IH _ _ _ Hl) as (l1 & l2 & -> & H1 & H2).
        exists (y :: l1), l2. simpl. rewrite Px, H1. auto.
    + destruct (IH _ _ _ H) as (l1 & l2 & -> & H1 & H2).
      exists (x :: l1), l2. simpl. rewrite Px. auto.
Qed.

Lemma best_signal_eq (e : EntryEnv) :
  best_signal e =
    match List.filter
            (fun s => Qge_bool (Qabs (predicted_pips s)) ENTRY_THRESHOLD_PIPS)
            (collected e) with
    | [] => None
    | s :: rest => Some (max_by (fun x => Qabs (predicted_pips x)) s rest)
    end.
Proof. reflexivity. Qed.

Lemma collected_not_hold (e : EntryEnv) (x : Signal) :
  In x (collected e) -> signal x <> HOLD.
Proof.
  unfold collected. rewrite in_flat_map. intros (inst & _ & Hx).
  unfold returned_signals in Hx.
  apply list_elem_of_In, list_elem_of_omap in Hx.
  destruct Hx as (gran & _ & Hx). unfold kept in Hx.
  destruct (generate_signal e inst gran) as [sg|]; [|discriminate].
  destruct (signal sg) eqn:Es; inversion Hx; subst; congruence.
Qed.

(** X6: the signal an entry evaluation selects is one of the collected
    signals, is not HOLD, predicts at least [ENTRY_THRESHOLD_PIPS] in absolute
    value, and no collected signal predicts more; among the collected
    signals that predict as much, it is the first in collection order
    (instruments in the order of [INSTRUMENTS], then M5, M15, H1). *)
Theorem selected_signal_is_first_maximum (e : EntryEnv) (best : Signal) :
  best_signal e = Some best ->
  signal best <> HOLD /\
  (ENTRY_THRESHOLD_PIPS <= Qabs (predicted_pips best))%Q /\
  exists before after,
    collected e = (before ++ best :: after)%list /\
    Forall (fun x => (Qabs (predicted_pips x) < Qabs (predicted_pips best))%Q)
      before /\
    Forall (fun x => (Qabs (predicted_pips x) <= Qabs (predicted_pips best))%Q)
      after.
Proof.
  rewrite best_signal_eq. intros H.
  set (P := fun s => Qge_bool (Qabs (predicted_pips s)) ENTRY_THRESHOLD_PIPS) in *.
  set (key := fun x => Qabs (predicted_pips x)) in *.
  destruct (List.filter P (collected e)) as [|s0 rest] eqn:Hf; [discriminate|].
  injection H as Hbest.
  destruct (max_by_first_maximum key rest [] [] s0) as (l1' & l2' & Heq & H1 & H2);
    [constructor | constructor |].
  rewrite Hbest in Heq, H1, H2. simpl in Heq. rewrite Heq in Hf.
  destruct (filter_split P _ _ _ _ Hf) as (l1 & l2 & Hc & Hl1 & Hl2).
  assert (Hin : In best (List.filter P (collected e))).
  { rewrite Hf. apply in_elt. }
  apply filter_In in Hin. destruct Hin as [Hin HP].
  apply Qge_bool_iff in HP.
  assert (Hlift : forall l l' (R : Q -> Q -> Prop),
            (forall a, (a < ENTRY_THRESHOLD_PIPS)%Q -> R a (key best)) ->
            List.filter P l = l' ->
            Forall (fun x => R (key x) (key best)) l' ->
            Forall (fun x => R (key x) (key best)) l).
  { intros l l' R Hlow <- Hall. apply Forall_forall. intros x Hx.
    destruct (P x) eqn:Px.
    - rewrite Forall_forall in Hall. apply Hall, list_elem_of_In, filter_In.
      split; [apply list_elem_of_In, Hx | exact Px].
    - apply Hlow. apply Qge_bool_false, Px. }
  split; [apply (collected_not_hold e), Hin|]. split; [exact HP|].
  exists l1, l2. split; [exact Hc|]. split.
  - apply (Hlift l1 l1' Qlt); try assumption.
    intros a Ha. eapply Qlt_le_trans; [exact Ha | exact HP].
  - apply (Hlift l2 l2' Qle); try assumption.
    intros a Ha. apply Qlt_le_weak. eapply Qlt_le_trans; [exact Ha | exact HP].
Qed.

Lemma selected_signal_is_first_maximum_witness :
  exists best,
    best_signal flat_entry = Some best /\
    signal best <> HOLD /\
    (ENTRY_THRESHOLD_PIPS <= Qabs (predicted_pips best))%Q.
Proof.
  eexists. split; [vm_compute; reflexivity|].
  pose proof (selected_signal_is_first_maximum flat_entry _ eq_refl) as H.
  split; [exact (proj1 H) | exact (proj1 (proj2 H))].
Defined.

(** ** Orders *)

Lemma best_signal_none (e : EntryEnv) :
  Forall (fun x => (Qabs (predicted_pips x) < ENTRY_THRESHOLD_PIPS)%Q)
    (collected e) ->
  best_signal e = None.
Proof.
  intros H. rewrite best_signal_eq.
  destruct (List.filter _ (collected e)) as [|x l] eqn:Hf; [reflexivity|].
  assert (Hin : In x (List.filter
                        (fun s => Qge_bool (Qabs (predicted_pips s))
                                    ENTRY_THRESHOLD_PIPS) (collected e))).
  { rewrite Hf. left. reflexivity. }
  apply filter_In in Hin. destruct Hin as [Hin HP].
  rewrite Forall_forall in H. apply list_elem_of_In, H in Hin.
  apply Qge_bool_iff in HP. exfalso. revert HP. apply Qlt_not_le, Hin.
Qed.

(** X7: an entry evaluation made while connected, in which the position
    fetch reports nothing open, every call of the predictor returns and no
    collected signal reaches [ENTRY_THRESHOLD_PIPS], sends nothing: it ends
    normally and only resets [active_trade] to none.  The price feed is not
    even asked. *)
Theorem no_viable_signal_no_order (cfg : Config) (e : EntryEnv) (s : State) :
  enabled s = true ->
  positions_reply e = FetchOk [] \/ positions_reply e = FetchError ->
  (forall inst gran, In inst INSTRUMENTS -> In gran ["M5"; "M15"; "H1"] ->
                     signal_error e inst gran = false) ->
  Forall (fun x => (Qabs (predicted_pips x) < ENTRY_THRESHOLD_PIPS)%Q)
    (collected e) ->
  job_multiframe cfg e s = Ok tt (set_active_trade None s) /\
  conditional_entry cfg e s = Ok tt (set_active_trade None s).
Proof.
  intros Hon Hflat Hret Hlow. apply best_signal_none in Hlow.
  unfold best_signal in Hlow.
  unfold job_multiframe, conditional_entry, bind, gets. rewrite Hon.
  change (negb true) with false. cbv beta iota.
  rewrite !get_live_positions_eq.
  destruct Hflat as [-> | ->]; cbn [positions_of fold_left];
    rewrite (collect_signals_returns e INSTRUMENTS _ Hret), Hlow;
    split; reflexivity.
Qed.

Lemma no_viable_signal_no_order_witness :
  let e := {| positions_reply := FetchError; positions_reply_log := FetchOk [];
              signal_error := fun _ _ => false;
              generate_signal := fun inst gran =>
                Some {| sig_instrument := inst; timeframe := gran;
                        signal := BUY; predicted_pips := 30;
                        trailing_pips := 5 |};
              entry_price_reply := PriceError; order_reply := OrderError |} in
  length (collected e) = 30%nat /\
  job_multiframe default_config e initial_state =
    Ok tt (set_active_trade None initial_state) /\
  conditional_entry default_config e initial_state =
    Ok tt (set_active_trade None initial_state).
Proof.
  intros e. split; [reflexivity|].
  apply (no_viable_signal_no_order default_config e initial_state).
  - reflexivity.
  - right. reflexivity.
  - reflexivity.
  - vm_compute. repeat constructor.
Defined.

(** X8: a position fetch that fails is taken for "no position open": the
    entry job then does exactly what it does when the broker reports an
    empty list, and the monitor round what it does without open trades.  In
    particular a qualifying signal is acted on although the open positions
    are unknown. *)
Theorem failed_position_fetch_counts_as_flat
    (cfg : Config) (e : EntryEnv) (c : CycleEnv) (s : State) :
  positions_reply e = FetchError ->
  open_trades c = FetchError ->
  job_multiframe cfg e s =
    job_multiframe cfg (with_positions_reply (FetchOk []) e) s /\
  conditional_entry cfg e s =
    conditional_entry cfg (with_positions_reply (FetchOk []) e) s /\
  monitor_cycle cfg c s =
    monitor_cycle cfg {| profit_updates := profit_updates c;
                         open_trades := FetchOk [];
                         replies := replies c |} s.
Proof.
  intros He Hc.
  unfold job_multiframe, conditional_entry, monitor_cycle, bind.
  rewrite !get_live_positions_eq, He, Hc. simpl. repeat split.
Qed.

Lemma failed_position_fetch_counts_as_flat_witness :
  exists sl tp,
    sent (final (job_multiframe default_config
                   (with_positions_reply FetchError busy_entry) initial_state))
    = [MarketOrder "EUR_USD" 1000 sl tp].
Proof.
  rewrite (proj1 (failed_position_fetch_counts_as_flat default_config
                    (with_positions_reply FetchError busy_entry)
                    {| profit_updates := []; open_trades := FetchError;
                       replies := [] |}
                    initial_state eq_refl eq_refl)).
  vm_compute. eauto.
Defined.

Lemma round_half_even_close (x : Q) :
  (2 * round_half_even x * Zpos (Qden x) - Zpos (Qden x) <= 2 * Qnum x
   <= 2 * round_half_even x * Zpos (Qden x) + Zpos (Qden x))%Z.
Proof.
  unfold round_half_even.
  pose proof (Z.div_mod (Qnum x) (Zpos (Qden x)) ltac:(lia)) as Hdm.
  pose proof (Z.mod_pos_bound (Qnum x) (Zpos (Qden x)) ltac:(lia)) as Hb.
  set (z := (Qnum x / Zpos (Qden x))%Z) in *.
  set (r := (Qnum x mod Zpos (Qden x))%Z) in *.
  destruct (Z.compare_spec (2 * r) (Zpos (Qden x))) as [E|E|E];
    [destruct (Z.even z)| |]; nia.
Qed.

(** Printing with five decimals moves a number by at most half a unit of
    the fifth decimal. *)
Lemma fmt5_close (x : Q) : (Qabs (fmt5 x - x) <= 1 # 200000)%Q.
Proof.
  apply Qabs_Qle_condition.
  pose proof (round_half_even_close (x * 100000)) as H.
  unfold fmt5. set (z := round_half_even (x * 100000)) in *.
  destruct x as [a b]. cbn [Qnum Qden Qmult] in H.
  rewrite Pos.mul_1_r in H.
  unfold Qle, Qminus, Qplus, Qopp. cbn [Qnum Qden].
  rewrite ?Pos2Z.inj_mul. split; nia.
Qed.

Lemma pip_size_cases (inst : string) :
  pip_size inst = (1 # 100)%Q \/ pip_size inst = (1 # 10000)%Q.
Proof. unfold pip_size. destruct (contains _ _); auto. Qed.

(** X9: the order [confirm_trade] sends once it has a price: the configured
    size, positive for a long and negative for a short trade, with both
    prices printed with five decimals, the stop loss less than one unit of
    the fifth decimal from the price 50 pips away and the take profit as
    close to the price 70 pips away, the stop on the losing and the target
    on the winning side.  It is the only request sent. *)
Theorem confirm_trade_order_geometry
    (cfg : Config) (inst : string) (sd : Side) (price : Q)
    (order : OrderReply) (s : State) :
  (0 < ORDER_SIZE cfg)%Z ->
  exists units sl tp,
    sent (final (confirm_trade cfg inst sd (PriceOk price) order s)) =
      (sent s ++ [MarketOrder inst units sl tp])%list /\
    Z.abs units = ORDER_SIZE cfg /\
    (exists k j : Z, sl = (k # 100000)%Q /\ tp = (j # 100000)%Q) /\
    match sd with
    | long => (0 < units)%Z /\ (sl < price)%Q /\ (price < tp)%Q /\
              (Qabs (sl - (price - 50 * pip_size inst)) < 1 # 100000)%Q /\
              (Qabs (tp - (price + 70 * pip_size inst)) < 1 # 100000)%Q
    | short => (units < 0)%Z /\ (tp < price)%Q /\ (price < sl)%Q /\
               (Qabs (sl - (price + 50 * pip_size inst)) < 1 # 100000)%Q /\
               (Qabs (tp - (price - 70 * pip_size inst)) < 1 # 100000)%Q
    end.
Proof.
  intros Hsize.
  assert (Hclose : forall x, (- (1 # 200000) <= fmt5 x - x)%Q /\
                             (fmt5 x - x <= 1 # 200000)%Q).
  { intros x. apply Qabs_Qle_condition, fmt5_close. }
  assert (Hlt : forall a b, (Qabs (fmt5 a - b) < 1 # 100000)%Q <->
                            (- (1 # 100000) < fmt5 a - b)%Q /\
                            (fmt5 a - b < 1 # 100000)%Q).
  { intros a b. apply Qabs_Qlt_condition. }
  unfold confirm_trade, bind, fetch_current_price, ret, modify.
  destruct sd.
  - exists (ORDER_SIZE cfg), (fmt5 (price - 50 * pip_size inst)),
      (fmt5 (price + 70 * pip_size inst)).
    split; [destruct order; reflexivity|]. split; [lia|].
    split; [eexists; eexists; split; reflexivity|].
    split; [exact Hsize|].
    pose proof (Hclose (price - 50 * pip_size inst)%Q) as [H1 H2].
    pose proof (Hclose (price + 70 * pip_size inst)%Q) as [H3 H4].
    rewrite !Hlt.
    destruct (pip_size_cases inst) as [E | E]; rewrite E in *;
      repeat split; lra.
  - exists (- ORDER_SIZE cfg)%Z, (fmt5 (price + 50 * pip_size inst)),
      (fmt5 (price - 70 * pip_size inst)).
    split; [destruct order; reflexivity|]. split; [lia|].
    split; [eexists; eexists; split; reflexivity|].
    split; [lia|].
    pose proof (Hclose (price + 50 * pip_size inst)%Q) as [H1 H2].
    pose proof (Hclose (price - 70 * pip_size inst)%Q) as [H3 H4].
    rewrite !Hlt.
    destruct (pip_size_cases inst) as [E | E]; rewrite E in *;
      repeat split; lra.
Qed.

Lemma confirm_trade_order_geometry_witness :
  exists units sl tp,
    sent (final (confirm_trade default_config "USD_JPY" short
                   (PriceOk (1500015 # 10000)) (OrderFilled "9")
                   initial_state)) =
      [MarketOrder "USD_JPY" units sl tp] /\
    (units < 0)%Z /\ (tp < 1500015 # 10000)%Q /\ (1500015 # 10000 < sl)%Q.
Proof.
  destruct (confirm_trade_order_geometry default_config "USD_JPY" short
              (1500015 # 10000) (OrderFilled "9") initial_state eq_refl)
    as (units & sl & tp & Hs & _ & _ & Hu & Htp & Hsl & _).
  exists units, sl, tp. auto.
Defined.

(** ** The positions dictionary of [RiskManager] *)

Lemma dict_get_dict_set (k k' : string) (v : Position) (d : list (string * Position)) :
  dict_get k (dict_set k' v d) =
    if String.eqb k' k then Some v else dict_get k d.
Proof.
  induction d as [|[k0 v0] d IH]; simpl.
  - reflexivity.
  - destruct (String.eqb k0 k') eqn:E0; simpl.
    + apply String.eqb_eq in E0. subst k0.
      destruct (String.eqb k' k); reflexivity.
    + destruct (String.eqb k0 k) eqn:E1; [|exact IH].
      apply String.eqb_eq in E1. subst k0.
      rewrite String.eqb_sym, E0. reflexivity.
Qed.

Lemma dict_set_keys (k : string) (v : Position) (d : list (string * Position)) :
  d.*1 = (dict_set k v d).*1 \/
  (~ In k d.*1 /\ (dict_set k v d).*1 = (d.*1 ++ [k])%list).
Proof.
  induction d as [|[k0 v0] d IH]; simpl.
  - right. split; [tauto | reflexivity].
  - destruct (String.eqb k0 k) eqn:E; simpl; [left; reflexivity|].
    destruct IH as [IH|[Hn IH]].
    + left. f_equal. exact IH.
    + right. split; [|f_equal; exact IH].
      intros [->|H]; [|tauto]. rewrite String.eqb_refl in E. discriminate.
Qed.

Lemma dict_set_NoDup (k : string) (v : Position) (d : list (string * Position)) :
  NoDup d.*1 -> NoDup (dict_set k v d).*1.
Proof.
  intros H. destruct (dict_set_keys k v d) as [<-|[Hn ->]]; [exact H|].
  apply NoDup_app. split; [exact H|]. split.
  - intros x Hx Hx'. apply list_elem_of_In in Hx.
    apply list_elem_of_singleton in Hx'. subst x. tauto.
  - apply NoDup_singleton.
Qed.

Lemma dict_set_head (k : string) (v : Position) (d : list (string * Position)) :
  d <> [] -> fst <$> head (dict_set k v d) = fst <$> head d.
Proof.
  destruct d as [|[k0 v0] d]; [congruence|]. intros _. simpl.
  destruct (String.eqb k0 k); reflexivity.
Qed.

Lemma positions_fold (trades : list Trade) :
  forall d : list (string * Position),
    let d' := fold_left (fun d t => dict_set (t_instrument t) (position_of t) d)
                trades d in
    (NoDup d.*1 -> NoDup d'.*1) /\
    (forall inst, dict_get inst d' =
       match last_trade_on inst trades with
       | Some t => Some (position_of t)
       | None => dict_get inst d
       end) /\
    (d <> [] -> fst <$> head d' = fst <$> head d).
Proof.
  induction trades as [|t ts IH]; intros d; simpl.
  - auto.
  - destruct (IH (dict_set (t_instrument t) (position_of t) d)) as (Hn & Hg & Hh).
    split; [|split].
    + intros H. apply Hn, dict_set_NoDup, H.
    + intros inst. rewrite Hg.
      destruct (last_trade_on inst ts); [reflexivity|].
      rewrite dict_get_dict_set.
      destruct (String.eqb (t_instrument t) inst); reflexivity.
    + intros Hd. rewrite Hh by apply dict_set_nonempty.
      apply dict_set_head, Hd.
Qed.

Lemma dict_get_head (d : list (string * Position)) (k : string) (v : Position) :
  head d = Some (k, v) -> dict_get k d = Some v.
Proof.
  destruct d as [|[k0 v0] d]; [discriminate|]. intros [= -> ->].
  simpl. rewrite String.eqb_refl. reflexivity.
Qed.

(** X10: the dictionary [get_live_positions] builds has one entry per
    instrument on which the broker reports a trade, and the entry of an
    instrument describes the last trade listed for it: earlier trades on the
    same instrument are not seen by the risk manager. *)
Theorem positions_keep_last_trade_per_instrument
    (trades : list Trade) (inst : string) :
  NoDup (positions_of trades).*1 /\
  dict_get inst (positions_of trades) =
    position_of <$> last_trade_on inst trades /\
  (In inst (positions_of trades).*1 <->
   exists t, In t trades /\ t_instrument t = inst).
Proof.
  destruct (positions_fold trades []) as (Hn & Hg & _). fold (positions_of trades) in *.
  assert (Hget : dict_get inst (positions_of trades) =
                 position_of <$> last_trade_on inst trades).
  { rewrite Hg. destruct (last_trade_on inst trades); reflexivity. }
  split; [apply Hn; constructor|]. split; [exact Hget|].
  assert (Hkeys : forall d, In inst d.*1 <-> dict_get inst d <> None).
  { induction d as [|[k v] d IHd]; simpl; [tauto|].
    destruct (String.eqb_spec k inst) as [->|Hne].
    - split; [discriminate | auto].
    - rewrite <- IHd. split; [intros [H|H]; [congruence | exact H] | auto]. }
  rewrite Hkeys, Hget. clear.
  induction trades as [|t ts IH]; simpl.
  - split; [congruence | intros (t & [] & _)].
  - destruct (last_trade_on inst ts) as [t'|] eqn:E.
    + split; [intros _|discriminate].
      destruct (proj1 IH) as (t0 & H0 & H1); [discriminate|]. eauto.
    + destruct (String.eqb_spec (t_instrument t) inst) as [Heq|Hne].
      * split; [eauto | discriminate].
      * simpl. split; [intros H; congruence|].
        intros (t0 & [<-|H0] & H1); [congruence|].
        apply IH. eauto.
Qed.

(** X11: after [get_live_positions], [active_trade] is none exactly when the
    fetch failed or reported no trade; otherwise it describes the last
    listed trade on the instrument of the first listed trade. *)
Theorem active_trade_after_refresh (reply : FetchReply) (s : State) :
  active_trade (final (get_live_positions reply s)) =
    match reply with
    | FetchOk (t :: ts) =>
        position_of <$> last_trade_on (t_instrument t) (t :: ts)
    | _ => None
    end.
Proof.
  rewrite get_live_positions_eq. simpl. unfold refreshed.
  destruct reply as [[|t ts]|]; try reflexivity.
  destruct (positions_fold ts [(t_instrument t, position_of t)]) as (_ & Hg & Hh).
  change (positions_of (t :: ts))
    with (fold_left (fun d t => dict_set (t_instrument t) (position_of t) d) ts
            [(t_instrument t, position_of t)]).
  specialize (Hh ltac:(discriminate)). simpl in Hh.
  destruct (head (fold_left _ ts _)) as [[k v]|] eqn:Eh; [|discriminate].
  injection Hh as ->. apply dict_get_head in Eh. rewrite Hg in Eh.
  simpl. rewrite <- Eh. simpl. rewrite String.eqb_refl.
  destruct (last_trade_on (t_instrument t) ts); reflexivity.
Qed.

(** ** The risk job *)

Lemma orders_app (l1 l2 : list Request) :
  orders (l1 ++ l2) = (orders l1 ++ orders l2)%list.
Proof. apply List.filter_app. Qed.

(** X12: [update_all_positions] acts only on the trade [RiskManager]
    tracks and only when a price for its instrument is at hand.  While the
    profit lies strictly between -50 and 70 pips nothing changes.  At or
    beyond either bound it asks the broker to close the trade and forgets
    the trade, also when the broker answers with a refusal; only a failing
    request keeps the trade tracked, and leaves as an exception.  In no
    case are the peak, cooldown or shared-profit tables, the connection
    flag or the time of the last entry touched. *)
Theorem update_all_positions_band
    (prices : string -> option Q) (reply : PutReply) (s : State) :
  let r := update_all_positions prices reply s in
  (peaks (final r) = peaks s /\
   recently_closed (final r) = recently_closed s /\
   shared_risk_data (final r) = shared_risk_data s /\
   enabled (final r) = enabled s /\
   last_entry_time (final r) = last_entry_time s) /\
  match active_trade s with
  | None => r = Ok tt s
  | Some a =>
      match prices (pos_instrument a) with
      | None => r = Ok tt s
      | Some cp =>
          ((-50 < calculate_profit a cp)%Q /\ (calculate_profit a cp < 70)%Q ->
           r = Ok tt s) /\
          ((calculate_profit a cp <= -50)%Q \/ (70 <= calculate_profit a cp)%Q ->
           sent (final r) = (sent s ++ [PutClose (trade_id a)])%list /\
           match reply with
           | PutError => raised r = true /\ active_trade (final r) = Some a
           | _ => raised r = false /\ active_trade (final r) = None
           end)
      end
  end.
Proof.
  cbv zeta. unfold update_all_positions, bind, gets, rm_close_trade_by_id,
    modify, ret, raise.
  destruct (active_trade s) as [a|] eqn:Ha; [|auto 10].
  destruct (prices (pos_instrument a)) as [cp|]; [|auto 10].
  change (match side a with
          | long => ((cp - entry_price a) / pip_size (pos_instrument a))%Q
          | short => ((entry_price a - cp) / pip_size (pos_instrument a))%Q
          end) with (calculate_profit a cp).
  destruct (Qge_bool (calculate_profit a cp) 70) eqn:E70.
  - apply Qge_bool_iff in E70. simpl.
    split; [destruct reply; simpl; auto|]. split.
    + intros [_ H]. exfalso. revert E70. apply Qlt_not_le, H.
    + intros _. destruct reply; simpl; auto.
  - apply Qge_bool_false in E70.
    destruct (Qle_bool (calculate_profit a cp) (-50)) eqn:E50; simpl.
    + apply Qle_bool_iff in E50.
      split; [destruct reply; simpl; auto|]. split.
      * intros [H _]. exfalso. revert E50. apply Qlt_not_le, H.
      * intros _. destruct reply; simpl; auto.
    + split; [auto|]. split; [reflexivity|].
      intros [H|H]; exfalso.
      * apply Qle_bool_iff in H. congruence.
      * revert H. apply Qlt_not_le, E70.
Qed.

Lemma update_all_positions_orders
    (prices : string -> option Q) (reply : PutReply) (s : State) :
  orders (sent (final (update_all_positions prices reply s))) = orders (sent s).
Proof.
  unfold update_all_positions, bind, gets, rm_close_trade_by_id, modify, ret, raise.
  destruct (active_trade s) as [a|]; [|reflexivity].
  destruct (prices (pos_instrument a)) as [cp|]; [|reflexivity].
  destruct (_ || _)%bool; [|reflexivity].
  destruct reply; simpl; rewrite orders_app; apply app_nil_r.
Qed.

Lemma update_all_positions_last_entry_time
    (prices : string -> option Q) (reply : PutReply) (s : State) :
  last_entry_time (final (update_all_positions prices reply s)) =
  last_entry_time s.
Proof.
  unfold update_all_positions, bind, gets, rm_close_trade_by_id, modify, ret, raise.
  destruct (active_trade s) as [a|]; [|reflexivity].
  destruct (prices (pos_instrument a)) as [cp|]; [|reflexivity].
  destruct (_ || _)%bool; [|reflexivity].
  destruct reply; reflexivity.
Qed.

(** X13: the debounce of the conditional entry.  A risk job that runs less
    than [CONDITIONAL_INTERVAL] seconds after the last entry attempt sends
    no order, whatever the signals, and leaves the time of the last attempt
    alone.  And whenever a risk job that ends normally has sent an order,
    the time of the last attempt is its own clock reading. *)
Theorem conditional_entry_is_debounced
    (cfg : Config) (e : RiskEnv) (s : State) :
  let r := job_risk_management cfg e s in
  ((now e - last_entry_time s < CONDITIONAL_INTERVAL)%Q ->
   orders (sent (final r)) = orders (sent s) /\
   last_entry_time (final r) = last_entry_time s) /\
  (raised r = false -> orders (sent (final r)) <> orders (sent s) ->
   last_entry_time (final r) = now e).
Proof.
  cbv zeta. unfold job_risk_management, bind, gets.
  destruct (enabled s) eqn:Hon.
  2:{ simpl. split; [auto | congruence]. }
  change (negb true) with false. cbv beta iota.
  pose proof (update_all_positions_orders (prices e) (put_reply e) s) as Ho.
  pose proof (update_all_positions_last_entry_time (prices e) (put_reply e) s)
    as Hl.
  destruct (update_all_positions (prices e) (put_reply e) s) as [[] s1|s1];
    simpl in Ho, Hl.
  2:{ simpl. split; [auto | congruence]. }
  rewrite get_live_positions_eq.
  destruct (positions_of _) as [|x l].
  2:{ simpl. split; [auto | congruence]. }
  change (last_entry_time (set_active_trade (refreshed (risk_positions_reply e)) s1))
    with (last_entry_time s1).
  rewrite Hl.
  destruct (Qge_bool (now e - last_entry_time s) CONDITIONAL_INTERVAL) eqn:Eq.
  - apply Qge_bool_iff in Eq. split.
    + intros H. exfalso. revert Eq. apply Qlt_not_le, H.
    + destruct (job_multiframe cfg (entry_env e) _) as [[] s2|s2]; simpl;
        [reflexivity | discriminate].
  - simpl. split; [auto | congruence].
Qed.

(** ** The exit monitor: what a step touches *)

(** X14: a step of the exit monitor on a trade touches nothing but that
    trade's own records.  The peak records of other trades, the cooldown and
    shared-profit entries of other instruments, [active_trade], the
    connection flag and the time of the last entry are as before, and the
    step sends either nothing or one close request for this trade. *)
Theorem monitor_step_touches_own_records
    (cfg : Config) (t : Trade) (e : StepEnv) (s : State) :
  let s' := final (monitor_trade cfg (t, e) s) in
  (forall tid, tid <> t_id t -> peaks s' !! tid = peaks s !! tid) /\
  (forall inst, inst <> t_instrument t ->
     recently_closed s' !! inst = recently_closed s !! inst /\
     shared_risk_data s' !! inst = shared_risk_data s !! inst) /\
  active_trade s' = active_trade s /\
  enabled s' = enabled s /\
  last_entry_time s' = last_entry_time s /\
  (sent s' = sent s \/ sent s' = (sent s ++ [TradeClose (t_id t)])%list).
Proof.
  cbv zeta.
  set (own := fun s s' : State =>
    (forall tid, tid <> t_id t -> peaks s' !! tid = peaks s !! tid) /\
    (forall inst, inst <> t_instrument t ->
       recently_closed s' !! inst = recently_closed s !! inst /\
       shared_risk_data s' !! inst = shared_risk_data s !! inst) /\
    active_trade s' = active_trade s /\
    enabled s' = enabled s /\
    last_entry_time s' = last_entry_time s).
  assert (Hrefl : own s s) by (unfold own; auto 10).
  assert (Hclose : forall s1, own s s1 -> sent s1 = sent s ->
            own s (final (close_trade_by_id (t_id t) (t_instrument t) e s1)) /\
            sent (final (close_trade_by_id (t_id t) (t_instrument t) e s1)) =
              (sent s ++ [TradeClose (t_id t)])%list).
  { intros s1 (Hp & Hi & Ha & Hen & Hl) Hs.
    rewrite close_trade_by_id_sent, Hs. split; [|reflexivity].
    destruct (close_reply e) eqn:Hr.
    - rewrite close_trade_by_id_ok by exact Hr. unfold own; simpl.
      split; [intros tid Hne; rewrite lookup_delete_ne by congruence; auto|].
      split; [|auto].
      intros inst Hne. rewrite lookup_insert_ne, lookup_delete_ne by congruence.
      apply Hi, Hne.
    - rewrite close_trade_by_id_error by exact Hr. unfold own; simpl. auto 10. }
  assert (Hgoal : forall r : res unit,
            own s (final r) /\
            (sent (final r) = sent s \/
             sent (final r) = (sent s ++ [TradeClose (t_id t)])%list) ->
            (forall tid, tid <> t_id t -> peaks (final r) !! tid = peaks s !! tid) /\
            (forall inst, inst <> t_instrument t ->
               recently_closed (final r) !! inst = recently_closed s !! inst /\
               shared_risk_data (final r) !! inst = shared_risk_data s !! inst) /\
            active_trade (final r) = active_trade s /\
            enabled (final r) = enabled s /\
            last_entry_time (final r) = last_entry_time s /\
            (sent (final r) = sent s \/
             sent (final r) = (sent s ++ [TradeClose (t_id t)])%list)).
  { intros r ((H1 & H2 & H3 & H4 & H5) & H6). auto 10. }
  apply Hgoal.
  destruct (in_cooldown cfg (t_instrument t) (clock_check e) s) eqn:Hc.
  { rewrite monitor_trade_cooldown by exact Hc. simpl. auto. }
  rewrite monitor_trade_active by exact Hc.
  pose proof (current_profit_final t e s) as Hf.
  destruct (current_profit t e s) as [[p|] s0|s0]; simpl in Hf; subst s0;
    try (simpl; auto).
  destruct (Qge_bool p (inject_Z (TAKE_PROFIT_PIPS cfg))) eqn:Htp.
  - apply Qge_bool_iff in Htp. rewrite evaluate_take_profit by exact Htp.
    destruct (Hclose s Hrefl eq_refl). auto.
  - apply Qge_bool_false in Htp. rewrite evaluate_below by exact Htp.
    set (s1 := set_peaks _ s).
    assert (H1 : own s s1).
    { unfold own, s1; simpl. split; [|auto 10].
      intros tid Hne. apply lookup_insert_ne. congruence. }
    destruct (_ && _)%bool.
    + destruct (Hclose s1 H1 eq_refl). auto.
    + simpl. auto.
Qed.

(** ** The exit monitor: when it holds *)

(** X15: a profit that is no lower than the stored peak, or the first
    profit seen for a trade, never triggers the trailing stop, provided the
    trailing gap is positive: outside a cooldown and below the take-profit
    level the step sends nothing, ends normally and stores a peak equal to
    that profit. *)
Theorem rising_profit_never_closes
    (cfg : Config) (t : Trade) (e : StepEnv) (s : State) (p : Q) :
  (0 < TRAILING_GAP cfg)%Z ->
  in_cooldown cfg (t_instrument t) (clock_check e) s = false ->
  current_profit t e s = Ok (Some p) s ->
  (p < inject_Z (TAKE_PROFIT_PIPS cfg))%Q ->
  match peaks s !! t_id t with
  | Some old => (old <= p)%Q
  | None => True
  end ->
  exists new,
    (new == p)%Q /\
    monitor_trade cfg (t, e) s =
      Ok tt (set_peaks (<[t_id t := new]> (peaks s)) s).
Proof.
  intros Hgap Hc Hp Htp Hold.
  rewrite (monitor_trade_observed cfg t e s p Hc Hp).
  rewrite evaluate_below by exact Htp.
  set (new := py_max (default p (peaks s !! t_id t)) p).
  assert (Hnew : (new == p)%Q).
  { subst new. destruct (peaks s !! t_id t) as [old|]; simpl.
    - destruct (py_max_cases old p) as [[-> H]|[-> _]]; [|reflexivity].
      apply Qle_antisym; assumption.
    - rewrite py_max_same. reflexivity. }
  exists new. split; [exact Hnew|].
  assert (Hret : Qge_bool (new - p) (inject_Z (TRAILING_GAP cfg)) = false).
  { apply Qge_bool_false.
    assert (E0 : (new - p == inject_Z 0)%Q) by (rewrite Hnew; ring).
    rewrite E0, <- Zlt_Qlt. exact Hgap. }
  rewrite Hret, andb_false_r. reflexivity.
Qed.

Lemma rising_profit_never_closes_witness :
  let s := publish "EUR_USD" 40 "t" (set_peaks {[ "1" := 30%Q ]} initial_state) in
  exists new,
    (new == 40)%Q /\
    monitor_trade default_config (eur_trade, step_at 100 0) s =
    Ok tt (set_peaks (<[t_id eur_trade := new]> (peaks s)) s).
Proof.
  intros s.
  apply (rising_profit_never_closes default_config eur_trade (step_at 100 0)
           s 40%Q).
  - reflexivity.
  - reflexivity.
  - reflexivity.
  - reflexivity.
  - vm_compute. discriminate.
Defined.

(** X16: the monitor has no stop loss.  A trade whose observed profit stays
    below both the activation threshold and the take-profit level is never
    closed by the monitor, however the profit moves and however many rounds
    pass: every round ends normally and sends nothing. *)
Theorem never_activated_never_closed
    (cfg : Config) (t : Trade) (looks : list (Q * string * StepEnv)) (s0 : State) :
  peaks s0 !! t_id t = None ->
  recently_closed s0 !! t_instrument t = None ->
  Forall (fun l : Q * string * StepEnv =>
            (l.1.1 < inject_Z (ACTIVATION_THRESHOLD cfg))%Q /\
            (l.1.1 < inject_Z (TAKE_PROFIT_PIPS cfg))%Q) looks ->
  exists s',
    live_trailing_stop_monitor cfg
      (map (fun l : Q * string * StepEnv => reported t l.1.1 l.1.2 l.2) looks) s0
    = Ok tt s' /\
    sent s' = sent s0 /\
    recently_closed s' = recently_closed s0.
Proof.
  intros Hp Hr Hall.
  assert (Hinv : match peaks s0 !! t_id t with
                 | Some m => (m < inject_Z (ACTIVATION_THRESHOLD cfg))%Q
                 | None => True
                 end) by (rewrite Hp; exact I).
  clear Hp. revert s0 Hr Hinv.
  induction Hall as [|[[p k] e] looks [Hact Htp] _ IH]; intros s0 Hr Hinv.
  - exists s0. auto.
  - simpl map. simpl in Hact, Htp. rewrite monitor_rounds_cons.
    rewrite reported_round_below by assumption.
    set (new := py_max (default p (peaks s0 !! t_id t)) p).
    assert (Hnew : (new < inject_Z (ACTIVATION_THRESHOLD cfg))%Q).
    { subst new. destruct (peaks s0 !! t_id t) as [m|]; simpl.
      - destruct (py_max_cases m p) as [[-> _]|[-> _]]; assumption.
      - rewrite py_max_same. exact Hact. }
    apply Qge_bool_false in Hnew. rewrite Hnew. cbv beta iota. simpl andb.
    cbv iota.
    destruct (IH (set_peaks (<[t_id t := new]> (peaks s0))
                    (publish (t_instrument t) p k s0))) as (s' & Hrun & Hs & Hrc).
    + exact Hr.
    + simpl. rewrite lookup_insert_eq. apply Qge_bool_false, Hnew.
    + exists s'. split; [exact Hrun|]. split; [exact Hs | exact Hrc].
Qed.

Lemma never_activated_never_closed_witness :
  exists s',
    live_trailing_stop_monitor default_config
      (map (fun l : Q * string * StepEnv => reported eur_trade l.1.1 l.1.2 l.2)
         [(5%Q, "t1", step_at 100 0); ((-30)%Q, "t2", step_at 160 0);
          ((-400)%Q, "t3", step_at 220 0)]) initial_state
    = Ok tt s' /\
    sent s' = sent initial_state /\
    recently_closed s' = recently_closed initial_state.
Proof.
  apply (never_activated_never_closed default_config eur_trade
           [(5%Q, "t1", step_at 100 0); ((-30)%Q, "t2", step_at 160 0);
            ((-400)%Q, "t3", step_at 220 0)] initial_state).
  - reflexivity.
  - reflexivity.
  - repeat constructor.
Defined.

(** X17: a close that the broker accepts starts a cooldown of exactly
    [COOLDOWN_PERIOD] seconds for the instrument, counted from the clock
    reading taken right after the close: until then every open trade on
    that instrument is passed over by the monitor, from then on it is
    evaluated again. *)
Theorem close_starts_cooldown
    (cfg : Config) (tid : string) (e : StepEnv) (s : State)
    (t' : Trade) (e' : StepEnv) :
  close_reply e = CloseOk ->
  let s1 := final (close_trade_by_id tid (t_instrument t') e s) in
  ((clock_check e' - clock_close e < inject_Z (COOLDOWN_PERIOD cfg))%Q ->
   monitor_trade cfg (t', e') s1 = Ok tt s1) /\
  ((inject_Z (COOLDOWN_PERIOD cfg) <= clock_check e' - clock_close e)%Q ->
   in_cooldown cfg (t_instrument t') (clock_check e') s1 = false /\
   monitor_trade cfg (t', e') s1 =
     match fetch_current_price (price_reply e') s1 with
     | Ok (Some c) s2 => evaluate cfg t' e' (computed_profit t' c) s2
     | Ok None s2 => Ok tt s2
     | Exn s2 => Exn s2
     end).
Proof.
  intros Hr s1.
  assert (Hrc : recently_closed s1 !! t_instrument t' = Some (clock_close e)).
  { subst s1. rewrite close_trade_by_id_ok by exact Hr. simpl.
    apply lookup_insert_eq. }
  assert (Hsh : shared_risk_data s1 !! t_instrument t' = None).
  { subst s1. rewrite close_trade_by_id_ok by exact Hr. simpl.
    apply lookup_delete_eq. }
  split.
  - intros Hlt. apply monitor_trade_cooldown, in_cooldown_iff. eauto.
  - intros Hge.
    assert (Hc : in_cooldown cfg (t_instrument t') (clock_check e') s1 = false).
    { unfold in_cooldown. rewrite Hrc. apply Qlt_bool_false, Hge. }
    split; [exact Hc|]. rewrite monitor_trade_active by exact Hc.
    unfold current_profit, bind, get_predicted_profit, gets. rewrite Hsh. simpl.
    destruct (fetch_current_price (price_reply e') s1) as [[c|] s2|s2];
      reflexivity.
Qed.

Lemma close_starts_cooldown_witness :
  let s1 := final (close_trade_by_id "1" (t_instrument eur_trade)
                     (step_at 1000 0) tracking) in
  monitor_trade default_config (eur_trade, step_at 1299 0) s1 = Ok tt s1 /\
  in_cooldown default_config (t_instrument eur_trade)
    (clock_check (step_at 1300 0)) s1 = false.
Proof.
  intros s1. split.
  - apply (proj1 (close_starts_cooldown default_config "1" (step_at 1000 0)
                    tracking eur_trade (step_at 1299 0) eq_refl)).
    reflexivity.
  - apply (proj2 (close_starts_cooldown default_config "1" (step_at 1000 0)
                    tracking eur_trade (step_at 1300 0) eq_refl)).
    vm_compute. discriminate.
Defined.

(** ** The heartbeat *)

Lemma heartbeat_eq (b : bool) (s : State) :
  heartbeat b s = Ok tt (set_enabled b s).
Proof.
  unfold heartbeat, check_connection, bind, gets, modify, ret, raise.
  destruct b; [reflexivity|].
  destruct s as [[] ? ? ? ? ? ?]; reflexivity.
Qed.

(** X18: the heartbeat loop never ends with an exception, and after any
    series of probes the connection flag is the outcome of the last probe:
    down after a failure, up again after the first success, whatever came
    before.  Nothing else of the state changes, so no missed work is made
    up. *)
Theorem flag_follows_last_probe (probes : list bool) (s : State) :
  connection_monitor probes s =
    Ok tt match last probes with
          | Some b => set_enabled b s
          | None => s
          end.
Proof.
  unfold connection_monitor. revert s.
  induction probes as [|b probes IH] using rev_ind; intros s; [reflexivity|].
  rewrite for_each_app, IH, last_snoc. cbv iota.
  rewrite for_each_cons, heartbeat_eq.
  destruct (last probes); reflexivity.
Qed.

(** ** Signals *)

Lemma py_min_cases (a b : Q) :
  (py_min a b = a /\ (a <= b)%Q) \/ (py_min a b = b /\ (b < a)%Q).
Proof.
  unfold py_min. destruct (Qlt_bool b a) eqn:E.
  - right. split; [reflexivity|]. apply Qlt_bool_iff, E.
  - left. split; [reflexivity|]. apply Qlt_bool_false, E.
Qed.

(** X19: whatever the model predicts, the trailing distance of a generated
    signal lies between [MIN_TRAILING_PIPS] and [MAX_TRAILING_PIPS], and the
    signal is BUY above 0.003 predicted pips, SELL below -0.003, HOLD in
    between; instrument and timeframe are those asked for. *)
Theorem generated_signal_is_well_formed (inst gran : string) (pred : Prediction) :
  let sg := signal_of_prediction inst gran pred in
  (MIN_TRAILING_PIPS <= trailing_pips sg)%Q /\
  (trailing_pips sg <= MAX_TRAILING_PIPS)%Q /\
  sig_instrument sg = inst /\ timeframe sg = gran /\
  (signal sg = BUY <-> (BUY_THRESHOLD < predicted_pips sg)%Q) /\
  (signal sg = SELL <-> (predicted_pips sg < SELL_THRESHOLD)%Q) /\
  (signal sg = HOLD <->
   (SELL_THRESHOLD <= predicted_pips sg)%Q /\
   (predicted_pips sg <= BUY_THRESHOLD)%Q).
Proof.
  cbv zeta.
  assert (Hclass : forall p,
            let k := if Qlt_bool BUY_THRESHOLD p then BUY
                     else if Qlt_bool p SELL_THRESHOLD then SELL else HOLD in
            (k = BUY <-> (BUY_THRESHOLD < p)%Q) /\
            (k = SELL <-> (p < SELL_THRESHOLD)%Q) /\
            (k = HOLD <-> (SELL_THRESHOLD <= p)%Q /\ (p <= BUY_THRESHOLD)%Q)).
  { intros p. cbv zeta.
    destruct (Qlt_bool BUY_THRESHOLD p) eqn:Eb.
    - apply Qlt_bool_iff in Eb.
      assert (Hs : ~ (p < SELL_THRESHOLD)%Q).
      { intros H. apply (Qlt_irrefl p).
        eapply Qlt_trans; [exact H|]. eapply Qlt_trans; [|exact Eb]. reflexivity. }
      split; [tauto|]. split; [split; [discriminate | tauto]|].
      split; [discriminate|]. intros [_ H]. exfalso. revert H.
      apply Qlt_not_le, Eb.
    - apply Qlt_bool_false in Eb.
      destruct (Qlt_bool p SELL_THRESHOLD) eqn:Es.
      + apply Qlt_bool_iff in Es.
        split; [split; [discriminate|]|].
        { intros H. exfalso. revert Eb. apply Qlt_not_le, H. }
        split; [tauto|]. split; [discriminate|]. intros [H _]. exfalso.
        revert H. apply Qlt_not_le, Es.
      + apply Qlt_bool_false in Es.
        split; [split; [discriminate|]|].
        { intros H. exfalso. revert Eb. apply Qlt_not_le, H. }
        split; [split; [discriminate|]|tauto].
        intros H. exfalso. revert Es. apply Qlt_not_le, H. }
  unfold signal_of_prediction. destruct pred as [p|ret raw_tr]; simpl.
  - split; [apply Qle_refl|]. split; [discriminate|].
    split; [reflexivity|]. split; [reflexivity|]. apply (Hclass p).
  - set (tr := (raw_tr / _)%Q). set (p := (ret / _)%Q).
    split; [apply py_max_l|]. split.
    { destruct (py_max_cases MIN_TRAILING_PIPS (py_min tr MAX_TRAILING_PIPS))
        as [[-> _]|[-> _]]; [discriminate|].
      destruct (py_min_cases tr MAX_TRAILING_PIPS) as [[-> H]|[-> _]];
        [exact H | apply Qle_refl]. }
    split; [reflexivity|]. split; [reflexivity|]. apply (Hclass p).
Qed.

Lemma generated_signal_shape (inst gran : string) (pred : Prediction) :
  let sg := signal_of_prediction inst gran pred in
  sig_instrument sg = inst /\ timeframe sg = gran /\
  (signal sg = BUY <-> (BUY_THRESHOLD < predicted_pips sg)%Q) /\
  (signal sg = SELL <-> (predicted_pips sg < SELL_THRESHOLD)%Q).
Proof.
  cbv zeta. unfold signal_of_prediction.
  set (pt := match pred with Single p => _ | Paired ret raw_tr => _ end).
  destruct pt as [p tr]. simpl. split; [reflexivity|]. split; [reflexivity|].
  destruct (Qlt_bool BUY_THRESHOLD p) eqn:Eb.
  - apply Qlt_bool_iff in Eb. split; [tauto|]. split; [discriminate|].
    intros H. exfalso. apply (Qlt_irrefl p).
    eapply Qlt_trans; [exact H|]. eapply Qlt_trans; [|exact Eb]. reflexivity.
  - apply Qlt_bool_false in Eb.
    assert (Hb : ~ (BUY_THRESHOLD < p)%Q) by (apply Qle_not_lt, Eb).
    destruct (Qlt_bool p SELL_THRESHOLD) eqn:Es.
    + apply Qlt_bool_iff in Es. split; [split; [discriminate | tauto] | tauto].
    + apply Qlt_bool_false in Es.
      assert (Hs : ~ (p < SELL_THRESHOLD)%Q) by (apply Qle_not_lt, Es).
      split; (split; [discriminate | tauto]).
Qed.

Lemma best_signal_viable_member (e : EntryEnv) (best : Signal) :
  best_signal e = Some best ->
  In best (collected e) /\
  (ENTRY_THRESHOLD_PIPS <= Qabs (predicted_pips best))%Q.
Proof.
  rewrite best_signal_eq. intros H.
  destruct (List.filter _ (collected e)) as [|s0 rest] eqn:Hf; [discriminate|].
  injection H as Hbest.
  destruct (max_by_first_maximum (fun x => Qabs (predicted_pips x)) rest [] [] s0)
    as (l1 & l2 & Heq & _); [constructor | constructor |].
  rewrite Hbest in Heq. simpl in Heq.
  assert (Hin : In best (List.filter
                           (fun s => Qge_bool (Qabs (predicted_pips s))
                                       ENTRY_THRESHOLD_PIPS) (collected e))).
  { rewrite Hf, Heq. apply in_elt. }
  apply filter_In in Hin. destruct Hin as [Hin HP].
  split; [exact Hin | apply Qge_bool_iff, HP].
Qed.

(** X20: when the signals come from [generate_signal], the signal the entry
    job selects is for one of the monitored instruments and one of the three
    timeframes, and its direction is the sign of the prediction: a long
    order for at least +50 predicted pips, a short order for at most -50. *)
Theorem selected_direction_is_sign_of_prediction
    (e : EntryEnv) (predict : string -> string -> option Prediction)
    (best : Signal) :
  (forall inst gran,
     generate_signal e inst gran = generate_signal_from predict inst gran) ->
  best_signal e = Some best ->
  In (sig_instrument best) INSTRUMENTS /\
  In (timeframe best) ["M5"; "M15"; "H1"] /\
  (side_of best = long <-> (ENTRY_THRESHOLD_PIPS <= predicted_pips best)%Q) /\
  (side_of best = short <-> (predicted_pips best <= - ENTRY_THRESHOLD_PIPS)%Q).
Proof.
  intros Hgen Hbest.
  destruct (best_signal_viable_member e best Hbest) as [Hin Hthr].
  unfold collected in Hin. rewrite in_flat_map in Hin.
  destruct Hin as (inst & Hinst & Hin).
  unfold returned_signals in Hin.
  apply list_elem_of_In, list_elem_of_omap in Hin.
  destruct Hin as (gran & Hgran & Hsg). apply list_elem_of_In in Hgran.
  rewrite Hgen in Hsg. unfold kept, generate_signal_from in Hsg.
  destruct (predict inst gran) as [pred|]; [|discriminate]. simpl in Hsg.
  assert (Hb : best = signal_of_prediction inst gran pred).
  { destruct (signal (signal_of_prediction inst gran pred)); congruence. }
  destruct (generated_signal_shape inst gran pred)
    as (Hi & Hg & Hbuy & Hsell).
  rewrite <- Hb in Hi, Hg, Hbuy, Hsell. rewrite Hi, Hg.
  split; [exact Hinst|]. split; [exact Hgran|].
  assert (Hcases : (ENTRY_THRESHOLD_PIPS <= predicted_pips best)%Q \/
                   (predicted_pips best <= - ENTRY_THRESHOLD_PIPS)%Q).
  { destruct (Qlt_le_dec (predicted_pips best) 0) as [Hneg|Hpos].
    - right. rewrite Qabs_neg in Hthr by (apply Qlt_le_weak, Hneg).
      apply Qopp_le_compat in Hthr. rewrite Qopp_involutive in Hthr. exact Hthr.
    - left. rewrite Qabs_pos in Hthr by exact Hpos. exact Hthr. }
  assert (Hlong : (ENTRY_THRESHOLD_PIPS <= predicted_pips best)%Q ->
                  side_of best = long).
  { intros H. unfold side_of.
    replace (signal best) with BUY; [reflexivity|]. symmetry. apply Hbuy.
    eapply Qlt_le_trans; [|exact H]. reflexivity. }
  assert (Hshort : (predicted_pips best <= - ENTRY_THRESHOLD_PIPS)%Q ->
                   side_of best = short).
  { intros H. unfold side_of.
    replace (signal best) with SELL; [reflexivity|]. symmetry. apply Hsell.
    eapply Qle_lt_trans; [exact H|]. reflexivity. }
  split; split; intros H.
  - destruct Hcases as [Hc|Hc]; [exact Hc|]. apply Hshort in Hc. congruence.
  - apply Hlong, H.
  - destruct Hcases as [Hc|Hc]; [|exact Hc]. apply Hlong in Hc. congruence.
  - apply Hshort, H.
Qed.

Lemma selected_direction_is_sign_of_prediction_witness :
  let predict := fun inst gran : string =>
    if (String.eqb inst "GBP_USD" && String.eqb gran "H1")%bool
    then Some (Paired (- (80 # 10000)) (3 # 10000))%Q else None in
  let e := {| positions_reply := FetchOk []; positions_reply_log := FetchOk [];
              signal_error := fun _ _ => false;
              generate_signal := generate_signal_from predict;
              entry_price_reply := PriceOk (12500 # 10000);
              order_reply := OrderFilled "8" |} in
  exists best,
    best_signal e = Some best /\
    sig_instrument best = "GBP_USD" /\
    side_of best = short.
Proof.
  intros predict e. eexists. split; [vm_compute; reflexivity|].
  split; [reflexivity|].
  apply (proj2 (proj2 (proj2 (selected_direction_is_sign_of_prediction
                                e predict _ (fun _ _ => eq_refl) eq_refl)))).
  vm_compute. discriminate.
Defined.

(** ** Where exceptions come from *)

Lemma for_each_not_raised {A} (body : A -> M unit) (l : list A) :
  Forall (fun x => forall s, raised (body x s) = false) l ->
  forall s, raised (for_each body l s) = false.
Proof.
  induction 1 as [|x l Hx _ IH]; intros s; [reflexivity|].
  rewrite for_each_cons. specialize (Hx s).
  destruct (body x s) as [[] s'|s']; [apply IH | discriminate].
Qed.

Lemma pair_replies_good (P : StepEnv -> Prop) (trades : list Trade) :
  P quiet -> forall rs, Forall P rs ->
  Forall (fun te : Trade * StepEnv => P te.2) (pair_replies trades rs).
Proof.
  intros Hq. induction trades as [|t ts IH]; intros rs Hrs; simpl;
    [constructor|].
  constructor.
  - simpl. destruct Hrs; [exact Hq | assumption].
  - apply IH. destruct Hrs; [constructor | assumption].
Qed.

(** X21: the trailing-stop monitor can only end through a failed request.
    As long as no pricing request fails with an error and no close request
    is refused, every round ends normally, whatever the broker reports,
    whatever the profits are, and also when the position fetch fails or
    the price list comes back empty. *)
Theorem monitor_survives_without_failed_requests
    (cfg : Config) (rounds : list CycleEnv) (s : State) :
  Forall (fun c => Forall (fun e => price_reply e <> PriceError /\
                                    close_reply e = CloseOk) (replies c)) rounds ->
  raised (live_trailing_stop_monitor cfg rounds s) = false.
Proof.
  intros Hall. unfold live_trailing_stop_monitor. revert s.
  apply for_each_not_raised.
  eapply Forall_impl; [exact Hall|]. clear. intros c Hc s.
  unfold monitor_cycle, bind.
  pose proof (shared_cache_writes_never_raise (profit_updates c) s) as Hw.
  destruct (for_each _ (profit_updates c) s) as [[] s1|s1]; [|discriminate].
  assert (Hfetch : exists trades, fetch_open_trades (open_trades c) s1
                                  = Ok trades s1).
  { destruct (open_trades c); eexists; reflexivity. }
  destruct Hfetch as [trades ->].
  apply for_each_not_raised.
  eapply Forall_impl;
    [apply (pair_replies_good
              (fun e => price_reply e <> PriceError /\ close_reply e = CloseOk));
       [split; [discriminate | reflexivity] | exact Hc]|].
  clear. intros [t e] [Hp Hcl] s. simpl in Hp, Hcl.
  destruct (in_cooldown cfg (t_instrument t) (clock_check e) s) eqn:Hcd.
  { rewrite monitor_trade_cooldown by exact Hcd. reflexivity. }
  rewrite monitor_trade_active by exact Hcd.
  assert (Hclose : forall s1, raised (close_trade_by_id (t_id t) (t_instrument t) e s1)
                              = false).
  { intros s1. rewrite close_trade_by_id_ok by exact Hcl. reflexivity. }
  assert (Hev : forall p s1, raised (evaluate cfg t e p s1) = false).
  { intros p s1.
    destruct (Qge_bool p (inject_Z (TAKE_PROFIT_PIPS cfg))) eqn:Htp.
    - apply Qge_bool_iff in Htp. rewrite evaluate_take_profit by exact Htp.
      apply Hclose.
    - apply Qge_bool_false in Htp. rewrite evaluate_below by exact Htp.
      destruct (_ && _)%bool; [apply Hclose | reflexivity]. }
  unfold current_profit, bind, get_predicted_profit, gets, fetch_current_price,
    ret, raise.
  destruct (predicted_profit_pips <$> shared_risk_data s !! t_instrument t);
    [apply Hev|].
  destruct (price_reply e); [apply Hev | reflexivity | congruence].
Qed.

Lemma monitor_survives_without_failed_requests_witness :
  raised (live_trailing_stop_monitor default_config
            [ {| profit_updates := []; open_trades := FetchError; replies := [] |};
              take_profit_round ] initial_state) = false.
Proof.
  apply (monitor_survives_without_failed_requests default_config
           [ {| profit_updates := []; open_trades := FetchError; replies := [] |};
             take_profit_round ] initial_state).
  repeat constructor; discriminate.
Defined.

(** X22: the scheduled jobs can only end through a failed call.  The entry
    job raises only when a call of the predictor raises or when its pricing
    or its order request fails; the risk job only when its close request
    fails or the entry job it triggers raises. *)
Theorem jobs_raise_only_on_failed_requests
    (cfg : Config) (e : RiskEnv) (s : State) :
  (raised (job_multiframe cfg (entry_env e) s) = true ->
   (exists inst gran, In inst INSTRUMENTS /\ In gran ["M5"; "M15"; "H1"] /\
                      signal_error (entry_env e) inst gran = true) \/
   entry_price_reply (entry_env e) = PriceError \/
   order_reply (entry_env e) = OrderError) /\
  (raised (job_risk_management cfg e s) = true ->
   put_reply e = PutError \/
   (exists inst gran, In inst INSTRUMENTS /\ In gran ["M5"; "M15"; "H1"] /\
                      signal_error (entry_env e) inst gran = true) \/
   entry_price_reply (entry_env e) = PriceError \/
   order_reply (entry_env e) = OrderError).
Proof.
  assert (Hentry : forall s0,
            raised (job_multiframe cfg (entry_env e) s0) = true ->
            (exists inst gran, In inst INSTRUMENTS /\
                               In gran ["M5"; "M15"; "H1"] /\
                               signal_error (entry_env e) inst gran = true) \/
            entry_price_reply (entry_env e) = PriceError \/
            order_reply (entry_env e) = OrderError).
  { intros s0. unfold job_multiframe, bind, gets.
    destruct (enabled s0); [|simpl; discriminate].
    change (negb true) with false. cbv beta iota.
    rewrite get_live_positions_eq.
    destruct (positions_of _) as [|x l].
    - destruct (collect_signals (entry_env e) INSTRUMENTS _)
        as [sigs s1|s1] eqn:Hc.
      + intros H. right.
        destruct (select_best sigs) as [best|]; [|discriminate].
        revert H.
        unfold confirm_trade, bind, fetch_current_price, modify, ret, raise.
        destruct (entry_price_reply (entry_env e)); simpl; auto;
          try discriminate.
        destruct (order_reply (entry_env e)); simpl; auto; discriminate.
      + intros _. left. eapply collect_signals_raised, Hc.
    - rewrite get_live_positions_eq. discriminate. }
  split; [apply Hentry|].
  unfold job_risk_management, bind, gets.
  destruct (enabled s); [|simpl; discriminate].
  change (negb true) with false. cbv beta iota.
  assert (Hput : raised (update_all_positions (prices e) (put_reply e) s) = true ->
                 put_reply e = PutError).
  { unfold update_all_positions, bind, gets, rm_close_trade_by_id, modify, ret, raise.
    destruct (active_trade s) as [a|]; [|discriminate].
    destruct (prices e (pos_instrument a)); [|discriminate].
    destruct (_ || _)%bool; [|discriminate].
    destruct (put_reply e); simpl; auto; discriminate. }
  destruct (update_all_positions (prices e) (put_reply e) s) as [[] s1|s1];
    [|intros _; left; apply Hput; reflexivity].
  rewrite get_live_positions_eq.
  destruct (positions_of _) as [|x l]; [|discriminate].
  destruct (Qge_bool _ CONDITIONAL_INTERVAL); [|discriminate].
  specialize (Hentry (set_active_trade (refreshed (risk_positions_reply e)) s1)).
  destruct (job_multiframe cfg (entry_env e) _) as [[] s2|s2];
    [discriminate | intros _; right; apply Hentry; reflexivity].
Qed.

Lemma jobs_raise_only_on_failed_requests_witness :
  let e := {| prices := fun _ => None; put_reply := Put200;
              risk_positions_reply := FetchOk []; now := 1060;
              entry_env :=
                {| positions_reply := FetchOk [];
                   positions_reply_log := FetchOk [];
                   signal_error := fun inst gran =>
                     (String.eqb inst "USD_JPY" && String.eqb gran "H1")%bool;
                   generate_signal := eur_buy_60;
                   entry_price_reply := PriceOk (11000 # 10000);
                   order_reply := OrderFilled "7" |} |} in
  job_multiframe default_config (entry_env e) initial_state = Exn initial_state /\
  ((exists inst gran, In inst INSTRUMENTS /\ In gran ["M5"; "M15"; "H1"] /\
                      signal_error (entry_env e) inst gran = true) \/
   entry_price_reply (entry_env e) = PriceError \/
   order_reply (entry_env e) = OrderError).
Proof.
  intros e. split; [reflexivity|].
  apply (proj1 (jobs_raise_only_on_failed_requests default_config e
                  initial_state)).
  reflexivity.
Defined.

(** ** The profit monitor *)

Lemma quote_trades_eq (qs : list Quote) (s : State) :
  exists rows,
    quote_trades qs s =
      Ok rows (final (for_each (fun w : string * Q * string =>
                                  let '(i, p, stamp) := w in
                                  update_predicted_profit i p stamp)
                        (published qs) s)) /\
    snap_trade_id <$> rows.*1 =
      omap (fun q => match q_price q with
                     | Some _ => Some (t_id (q_trade q))
                     | None => None
                     end) qs.
Proof.
  revert s. induction qs as [|q qs IH]; intros s; simpl.
  - exists []. split; reflexivity.
  - unfold published. simpl omap. destruct (q_price q) as [c|]; [|apply IH].
    fold (published qs). rewrite for_each_cons.
    unfold bind at 1. rewrite !update_predicted_profit_publish.
    destruct (IH (publish (t_instrument (q_trade q))
                    (monitor_profit_pips (q_trade q) c) (q_stamp q) s))
      as (rows & Hq & Hids).
    unfold bind. rewrite Hq. eexists. split; [reflexivity|].
    simpl. f_equal. exact Hids.
Qed.


Lemma latest_fold_spec (tid : string) (l : list (string * Z * ProfitRow)) :
  let latest :=
    foldr (fun kv acc =>
             let '((id, ts), row) := kv in
             if String.eqb id tid then
               match acc with
               | Some (ts', row') =>
                   if (ts' <? ts)%Z then Some (ts, row) else Some (ts', row')
               | None => Some (ts, row)
               end
             else acc) None l in
  match latest with
  | Some (ts, row) =>
      (tid, ts, row) ∈ l /\
      forall ts' row', (tid, ts', row') ∈ l -> (ts' <= ts)%Z
  | None => forall ts' row', (tid, ts', row') ∉ l
  end.
Proof.
  cbv zeta. induction l as [|[[id ts] row] l IH]; simpl.
  - intros ts' row' H. inversion H.
  - destruct (String.eqb_spec id tid) as [->|Hne].
    + destruct (foldr _ None l) as [[ts0 row0]|].
      * destruct IH as [Hin Hmax].
        destruct (ts0 <? ts)%Z eqn:E.
        -- apply Z.ltb_lt in E. split; [left|].
           intros ts' row' H. apply elem_of_cons in H.
           destruct H as [[= -> ->]|H]; [lia|]. specialize (Hmax _ _ H). lia.
        -- apply Z.ltb_ge in E. split; [right; exact Hin|].
           intros ts' row' H. apply elem_of_cons in H.
           destruct H as [[= -> ->]|H]; [lia | eauto].
      * split; [left|]. intros ts' row' H. apply elem_of_cons in H.
        destruct H as [[= -> ->]|H]; [lia | exfalso; eapply IH; eauto].
    + destruct (foldr _ None l) as [[ts0 row0]|].
      * destruct IH as [Hin Hmax]. split; [right; exact Hin|].
        intros ts' row' H. apply elem_of_cons in H.
        destruct H as [[= -> -> ->]|H]; [congruence | eauto].
      * intros ts' row' H. apply elem_of_cons in H.
        destruct H as [[= -> -> ->]|H]; [congruence | eapply IH; eauto].
Qed.

(** X24: [latest_snapshot] finds the newest snapshot of a trade: the row it
    returns is a row of that trade and no row of the trade has a later
    timestamp; it returns nothing exactly when the table has no row of the
    trade. *)
Theorem latest_snapshot_is_newest
    (tid : string) (tbl : gmap (string * Z) ProfitRow) :
  match latest_snapshot tid tbl with
  | Some (ts, row) =>
      tbl !! (tid, ts) = Some row /\
      forall ts' row', tbl !! (tid, ts') = Some row' -> (ts' <= ts)%Z
  | None => forall ts', tbl !! (tid, ts') = None
  end.
Proof.
  pose proof (latest_fold_spec tid (map_to_list tbl)) as H. cbv zeta in H.
  unfold latest_snapshot.
  destruct (foldr _ None (map_to_list tbl)) as [[ts row]|].
  - destruct H as [Hin Hmax]. split; [apply elem_of_map_to_list, Hin|].
    intros ts' row' Hl. apply (Hmax ts' row'), elem_of_map_to_list, Hl.
  - intros ts'. destruct (tbl !! (tid, ts')) as [row'|] eqn:E; [|reflexivity].
    exfalso. apply (H ts' row'), elem_of_map_to_list, E.
Qed.

Lemma record_closed_fold (ct : string -> Z) (tbl : gmap (string * Z) ProfitRow)
    (h : gmap string HistoryRow) (l : list string) (tid : string) :
  foldr (record_closed ct tbl) h l !! tid =
    if decide (tid ∈ l) then
      match latest_snapshot tid tbl with
      | Some (_, row) =>
          Some {| hist_instrument := row_instrument row;
                  final_profit_pips := row_profit_pips row;
                  final_profit_usd := row_profit_usd row;
                  close_timestamp := ct tid |}
      | None => h !! tid
      end
    else h !! tid.
Proof.
  induction l as [|x l IH].
  - destruct (decide (tid ∈ [])) as [H|H]; [inversion H | reflexivity].
  - cbn [foldr]. unfold record_closed at 1.
    destruct (decide (x = tid)) as [->|Hne].
    + destruct (decide (tid ∈ tid :: l)) as [_|H]; [|exfalso; apply H; left].
      destruct (latest_snapshot tid tbl) as [[ts row]|] eqn:E.
      * apply lookup_insert_eq.
      * rewrite IH. destruct (decide (tid ∈ l)); reflexivity.
    + assert (Hl : match latest_snapshot x tbl with
                   | Some (_, row) =>
                       <[x := {| hist_instrument := row_instrument row;
                                 final_profit_pips := row_profit_pips row;
                                 final_profit_usd := row_profit_usd row;
                                 close_timestamp := ct x |}]>
                         (foldr (record_closed ct tbl) h l)
                   | None => foldr (record_closed ct tbl) h l
                   end !! tid = foldr (record_closed ct tbl) h l !! tid).
      { destruct (latest_snapshot x tbl) as [[ts row]|]; [|reflexivity].
        apply lookup_insert_ne, Hne. }
      rewrite Hl, IH.
      destruct (decide (tid ∈ l)) as [Hin|Hnin];
        destruct (decide (tid ∈ x :: l)) as [Hin'|Hnin']; try reflexivity.
      * exfalso. apply Hnin'. right. exact Hin.
      * exfalso. apply elem_of_cons in Hin'. destruct Hin'; [congruence | tauto].
Qed.

(** X25: how the profit monitor decides that a trade is closed.  After a
    pass, [detected_open] holds the ids of the reported trades whose price
    could be fetched.  A trade gets a history row in this pass exactly when
    it was in [detected_open] before, is not among those ids now, and has a
    snapshot; the row carries the profit of its newest snapshot.  So a trade
    that is still open is recorded as closed when its price, or the whole
    trades request, fails for one pass.  Every other history row is left as
    it was. *)
Theorem profit_monitor_records_unseen_trades
    (env : MonitorEnv) (db : ProfitDb) (s : State) (tid : string) :
  exists snaps db',
    fetch_trade_data env db s =
      Ok (snaps, db') (final (fetch_trade_data env db s)) /\
    detected_open db' = priced_ids (trades_reply env) /\
    trade_history db' !! tid =
      if decide (tid ∈ detected_open db /\ tid ∉ priced_ids (trades_reply env))
      then match latest_snapshot tid (trade_profits db) with
           | Some (_, row) =>
               Some {| hist_instrument := row_instrument row;
                       final_profit_pips := row_profit_pips row;
                       final_profit_usd := row_profit_usd row;
                       close_timestamp := close_time env tid |}
           | None => trade_history db !! tid
           end
      else trade_history db !! tid.
Proof.
  unfold fetch_trade_data, bind.
  assert (Hrows : exists rows s1,
            match trades_reply env with
            | TradesOk quotes => quote_trades quotes
            | TradesError => ret []
            end s = Ok rows s1 /\
            list_to_set (snap_trade_id <$> rows.*1) =
              priced_ids (trades_reply env)).
  { destruct (trades_reply env) as [qs|]; simpl.
    - destruct (quote_trades_eq qs s) as (rows & Hq & Hids).
      exists rows. eexists. split; [exact Hq|]. rewrite Hids. reflexivity.
    - exists [], s. split; reflexivity. }
  destruct Hrows as (rows & s1 & -> & Hids).
  eexists. eexists. split; [reflexivity|]. simpl.
  split; [exact Hids|].
  rewrite record_closed_fold, Hids.
  destruct (decide (tid ∈ elements (detected_open db ∖ priced_ids (trades_reply env))))
    as [Hin|Hnin];
    destruct (decide (tid ∈ detected_open db /\
                      tid ∉ priced_ids (trades_reply env))) as [H|H];
    try reflexivity.
  - exfalso. apply H. apply elem_of_elements, elem_of_difference in Hin. exact Hin.
  - exfalso. apply Hnin, elem_of_elements, elem_of_difference, H.
Qed.
